(** * The Tekton bundler and the OCI signature verifier, embedded in Rocq

    Sources embedded here:
    - [cmd/bundler/main.go]: [parseFiles], [parseResource], [constructImage],
      [createTarball], [publishImage], [annotatedLayer] and [main];
    - package [oci]: [lookupVerifier] and [cosignVerifier.Verify].

    Go strings are byte sequences and are modelled by [string]; a Go [error]
    built with [fmt.Errorf] is modelled by its message; a Go function that
    returns [(v, error)] is modelled with the sum type [result], except
    [Verify], whose boolean is meaningful next to the error and which
    returns a pair.  A [v1.Image] is modelled by the list of the layers
    appended to the empty image, and the staging directory by a finite map
    from paths to file contents.  Library functions the program calls (the
    YAML decoder, [strconv.Quote], the tar header writer, the digest
    computations of [tarball], the registry client, the signature backend)
    are parameters of the sections below. *)

From Stdlib Require Import Ascii DecimalString DecimalNat.
From stdpp Require Import base decidable countable option list gmap strings.

Local Open Scope stdpp_scope.

(** ** Errors and results *)

Definition error := string.

Inductive result (A : Type) : Type :=
  | Ok (a : A)
  | Err (e : error).
Arguments Ok {A} a.
Arguments Err {A} e.

#[global] Instance result_ret : MRet result := fun _ a => Ok a.
#[global] Instance result_bind : MBind result := fun _ _ k r =>
  match r with
  | Ok a => k a
  | Err e => Err e
  end.

(** ** Strings: the pieces of [strings] and [fmt] the program uses *)

Definition LF : string := String "010"%char EmptyString.
Definition DQ : string := String "034"%char EmptyString.

(** [%d] of a non-negative [int]. *)
Definition itoa (n : nat) : string := NilEmpty.string_of_uint (Nat.to_uint n).

(** [strings.HasPrefix]. *)
Definition HasPrefix (s prefix : string) : bool := String.prefix prefix s.

(** [strings.Split(s, sep)] for a non-empty [sep]: the leftmost occurrences
    of [sep], not overlapping, cut [s]; the rest of [s] after the last cut is
    the last part.  [skip] counts the bytes of a matched separator that are
    still to be dropped and [cur] holds the current part, reversed. *)
Fixpoint Split_from (sep : string) (skip : nat) (cur : string) (s : string)
  : list string :=
  match s with
  | EmptyString => [String.rev cur]
  | String c s' =>
    match skip with
    | S k => Split_from sep k cur s'
    | O =>
      if String.prefix sep s
      then String.rev cur :: Split_from sep (String.length sep - 1) EmptyString s'
      else Split_from sep 0 (String c cur) s'
    end
  end.

Definition Split (s sep : string) : list string := Split_from sep 0 EmptyString s.

(** [strings.Contains], as a test: [sub] is a prefix of [s] or occurs
    further on. *)
Fixpoint occurs (sub s : string) : bool :=
  String.prefix sub s ||
  match s with
  | EmptyString => false
  | String _ s' => occurs sub s'
  end.

(** ** The data model of [main.go] *)

Record resourceKey := ResourceKey {
  apiVersion : string;
  kind : string;
  name : string;
}.

Record resource := Resource {
  key : resourceKey;
  content : string;
}.

Record YamlMetadata := { Name : string }.

Record YamlResource := {
  Kind : string;
  ApiVersion : string;
  Metadata : YamlMetadata;
}.

(** The zero value of [YamlResource], what [var yr YamlResource] declares. *)
Definition zeroYamlResource : YamlResource :=
  {| Kind := EmptyString; ApiVersion := EmptyString;
     Metadata := {| Name := EmptyString |} |}.

#[global] Instance resourceKey_eq_dec : EqDecision resourceKey.
Proof. solve_decision. Defined.

#[global] Instance resourceKey_countable : Countable resourceKey.
Proof.
  refine (inj_countable'
            (fun k => (apiVersion k, kind k, name k))
            (fun t => ResourceKey t.1.1 t.1.2 t.2) _).
  by intros [].
Defined.

#[global] Instance resource_eq_dec : EqDecision resource.
Proof. solve_decision. Defined.

(** [%v] of a [resourceKey]: the fields in braces, separated by spaces. *)
Definition fmt_key (k : resourceKey) : string :=
  "{" +:+ apiVersion k +:+ " " +:+ kind k +:+ " " +:+ name k +:+ "}".

(** The tail [(filename %s, index %d)] shared by the errors of
    [parseResource]. *)
Definition at_part (filename : string) (index : nat) : string :=
  "(filename " +:+ filename +:+ ", index " +:+ itoa index +:+ ")".

Definition maxResources : nat := 10.
Definition separator : string := "---" +:+ LF.

(** The state of [Split_from] from which the last part comes out empty:
    either the text still to read ends with a whole separator that no
    pending skip cuts into, or the pending skip eats exactly what is left
    and the current part is empty. *)
Definition ends_cut (skip : nat) (cur s : string) : Prop :=
  (∃ u, s = u +:+ separator ∧ skip <= String.length u) ∨
  (skip = String.length s ∧ cur = EmptyString).

(** ** Resource extraction: [parseResource] and [parseFiles] *)

Section Extraction.

(** [yaml.Unmarshal] into a [YamlResource], [strconv.Quote] (the verb
    [%q]) and [os.ReadFile]. *)
Variable yaml_Unmarshal : string -> result YamlResource.
Variable strconv_Quote : string -> string.
Variable os_ReadFile : string -> result string.

Definition errUnmarshal (filename : string) (index : nat) (err : error) : error :=
  "unmarshalling yaml " +:+ at_part filename index +:+ ": " +:+ err.
Definition errAPIVersion (filename : string) (index : nat) : error :=
  "only tekton.dev/v1beta1 supported by this tool " +:+ at_part filename index.
Definition errKind (k filename : string) (index : nat) : error :=
  "unsupported Kind " +:+ strconv_Quote k +:+ " " +:+ at_part filename index.
Definition errName (filename : string) (index : nat) : error :=
  "name is required " +:+ at_part filename index.

Definition parseResource (s filename : string) (index : nat) : result resource :=
  match yaml_Unmarshal s with
  | Err err => Err (errUnmarshal filename index err)
  | Ok yr =>
    if negb (bool_decide (ApiVersion yr = "tekton.dev/v1beta1"))
    then Err (errAPIVersion filename index)
    else
      if negb (bool_decide (Kind yr = "Task") || bool_decide (Kind yr = "Pipeline"))
      then Err (errKind (Kind yr) filename index)
      else
        if bool_decide (Name (Metadata yr) = EmptyString)
        then Err (errName filename index)
        else Ok {| key := {| apiVersion := ApiVersion yr;
                             kind := Kind yr;
                             name := Name (Metadata yr) |};
                   content := s |}
  end.

Definition errParsing (err : error) : error := "parsing resource: " +:+ err.
Definition errDuplicate (k : resourceKey) : error := "duplicate entry " +:+ fmt_key k.
Definition errReading (filename : string) (err : error) : error :=
  "reading " +:+ strconv_Quote filename +:+ ": " +:+ err.

(** The line [parseFiles] writes to standard error for an accepted part. *)
Definition logFound (k : resourceKey) (filename : string) (index : nat) : string :=
  "Found " +:+ fmt_key k +:+ " " +:+ at_part filename index +:+ LF.

(** The variables [parseFiles] updates in its loops, and the lines it has
    written to standard error. *)
Record extraction := Extraction {
  resources : list resource;
  keys : gmap resourceKey bool;
  stderr : list string;
}.

Definition extraction0 : extraction :=
  {| resources := []; keys := ∅; stderr := [] |}.

(** One turn of the inner loop: the left result is the early return. *)
Definition process_part (filename : string) (index : nat) (part : string)
    (st : extraction) : extraction * option error :=
  match parseResource part filename index with
  | Err err => (st, Some (errParsing err))
  | Ok r =>
    let st' := {| resources := resources st; keys := keys st;
                  stderr := stderr st ++ [logFound (key r) filename index] |} in
    match keys st !! key r with
    | Some _ => (st', Some (errDuplicate (key r)))
    | None =>
      ({| resources := resources st ++ [r];
          keys := <[key r := true]> (keys st);
          stderr := stderr st' |}, None)
    end
  end.

(** [for index, part := range parts]. *)
Fixpoint parseParts (filename : string) (index : nat) (parts : list string)
    (st : extraction) : extraction * option error :=
  match parts with
  | [] => (st, None)
  | part :: rest =>
    match process_part filename index part st with
    | (st', Some err) => (st', Some err)
    | (st', None) => parseParts filename (S index) rest st'
    end
  end.

(** [for _, filename := range filenames]. *)
Fixpoint parseFiles_loop (filenames : list string) (st : extraction)
    : extraction * option error :=
  match filenames with
  | [] => (st, None)
  | filename :: rest =>
    match os_ReadFile filename with
    | Err err => (st, Some (errReading filename err))
    | Ok contents =>
      match parseParts filename 0 (Split contents separator) st with
      | (st', Some err) => (st', Some err)
      | (st', None) => parseFiles_loop rest st'
      end
    end
  end.

(** [parseFiles]: the lines written to standard error and the returned
    pair, [Err err] for [nil, err] and [Ok resources] for
    [resources, nil]. *)
Definition parseFiles (filenames : list string) : list string * result (list resource) :=
  match parseFiles_loop filenames extraction0 with
  | (st, Some err) => (stderr st, Err err)
  | (st, None) => (stderr st, Ok (resources st))
  end.

(** *** The input seen as one sequence

    What the two loops of [parseFiles] go through, in order: for each file
    in turn, either the failure to read it, or its parts with their
    indexes.  [run] is the two loops flattened into one over that
    sequence. *)
Inductive event :=
  | EReadErr (filename : string) (err : error)
  | EPart (filename : string) (index : nat) (part : string).

Fixpoint parts_from (filename : string) (index : nat) (parts : list string)
    : list event :=
  match parts with
  | [] => []
  | part :: rest => EPart filename index part :: parts_from filename (S index) rest
  end.

Definition file_events (filename : string) : list event :=
  match os_ReadFile filename with
  | Err err => [EReadErr filename err]
  | Ok contents => parts_from filename 0 (Split contents separator)
  end.

Definition events (filenames : list string) : list event :=
  filenames ≫= file_events.

Fixpoint run (evs : list event) (st : extraction) : extraction * option error :=
  match evs with
  | [] => (st, None)
  | EReadErr filename err :: _ => (st, Some (errReading filename err))
  | EPart filename index part :: rest =>
    match process_part filename index part st with
    | (st', Some err) => (st', Some err)
    | (st', None) => run rest st'
    end
  end.

(** The part at [ev] passes [parseResource] and gives [r]. *)
Definition yields (ev : event) (r : resource) : Prop :=
  match ev with
  | EReadErr _ _ => False
  | EPart filename index part => parseResource part filename index = Ok r
  end.

(** The uniqueness index and the resource list agree, and no key occurs
    twice. *)
Definition index_ok (st : extraction) : Prop :=
  NoDup (key <$> resources st) ∧
  ∀ k, is_Some (keys st !! k) ↔ k ∈ key <$> resources st.

End Extraction.

(** ** Layers, descriptors and images *)

(** [v1.Hash], by its text. *)
Definition Hash := string.

(** The staging file system: the bytes stored at each path. *)
Abbreviation FS := (gmap string string).

(** The fields of [v1.Descriptor] the program sets. *)
Record Descriptor := {
  MediaType : string;
  Size : Z;
  Digest : Hash;
  Annotations : gmap string string;
}.

(** The interface [v1.Layer]: each method returns a value and an error; the
    two readers open the layer's file when they are called. *)
Record Layer := {
  Layer_Digest : result Hash;
  Layer_DiffID : result Hash;
  Layer_Compressed : FS -> result string;
  Layer_Uncompressed : FS -> result string;
  Layer_Size : result Z;
  Layer_MediaType : result string;
}.

Record annotatedLayer := AnnotatedLayer {
  layer : Layer;
  annotations : gmap string string;
}.

Definition annotatedLayer_Descriptor (al : annotatedLayer) : result Descriptor :=
  mt ← Layer_MediaType (layer al);
  sz ← Layer_Size (layer al);
  dg ← Layer_Digest (layer al);
  Ok {| Annotations := annotations al; MediaType := mt; Size := sz; Digest := dg |}.

Definition annotatedLayer_Digest (al : annotatedLayer) : result Hash :=
  Layer_Digest (layer al).
Definition annotatedLayer_DiffID (al : annotatedLayer) : result Hash :=
  Layer_DiffID (layer al).
Definition annotatedLayer_Compressed (al : annotatedLayer) : FS -> result string :=
  Layer_Compressed (layer al).
Definition annotatedLayer_Uncompressed (al : annotatedLayer) : FS -> result string :=
  Layer_Uncompressed (layer al).
Definition annotatedLayer_Size (al : annotatedLayer) : result Z :=
  Layer_Size (layer al).
Definition annotatedLayer_MediaType (al : annotatedLayer) : result string :=
  Layer_MediaType (layer al).

(** A [v1.Image] built from [empty.Image] by [mutate.AppendLayers]: the
    layers appended so far, oldest first. *)
Abbreviation Image := (list annotatedLayer).
Definition empty_Image : Image := [].

(** [name.Reference], by what its methods [Name] and [String] return. *)
Record Reference := {
  ref_Name : string;
  ref_String : string;
}.

(** What varies from one run of the program to the next: the clock, the
    temporary directory, the input files, and which calls to the operating
    system and to the registry fail. *)
Record World := {
  os_TempDir : string;
  time_Now_UnixMicro : Z;
  os_ReadFile : string -> result string;
  os_MkdirAll : string -> option error;
  os_Create : string -> option error;
  tar_WriteHeader : string -> option error;
  tar_Write : string -> option error;
  crane_Push : Image -> string -> option error;
}.

(** [%d] and [strconv.FormatInt(_, 10)] of an [int64]. *)
Definition FormatInt (z : Z) : string := NilEmpty.string_of_int (Z.to_int z).

Definition annotationAPIVersion : string := "dev.tekton.image.apiVersion".
Definition annotationKind : string := "dev.tekton.image.kind".
Definition annotationName : string := "dev.tekton.image.name".

(** ** Building and publishing the image: [createTarball], [constructImage],
    [publishImage] and [main] *)

(** The fields of [tar.Header] that [createTarball] sets. *)
Record tarHeader := {
  hdr_Name : string;
  hdr_Mode : Z;
  hdr_Size : Z;
}.

(** The command line after [flag.Parse]. *)
Record Flags := {
  help : bool;
  image : string;
  flag_Args : list string;
}.

(** What a run of [main] leaves behind. *)
Record Run := {
  stdout : list string;
  errout : list string;
  exit_code : nat;
}.

(** A list with the positions of its elements, counted from [index]. *)
Fixpoint numbered {A} (index : nat) (l : list A) : list (nat * A) :=
  match l with
  | [] => []
  | x :: rest => (index, x) :: numbered (S index) rest
  end.

(** [sub] occurs in [s]. *)
Definition Contains (s sub : string) : Prop :=
  ∃ pre post, s = pre +:+ sub +:+ post.

Section Bundler.

(** The libraries: YAML, [strconv], [path/filepath], [archive/tar],
    [tarball], [mutate], the manifest digest of an image computed from
    its layers' descriptors and diff IDs, [name] and [os.RemoveAll]. *)
Variable yaml_Unmarshal : string -> result YamlResource.
Variable strconv_Quote : string -> string.
Variable filepath_Join : string -> string -> string.
Variable tar_header_block : tarHeader -> string.
Variable tarball_computeDigest : string -> result (Hash * Z).
Variable tarball_computeDiffID : string -> result Hash.
Variable tarball_compressed : string -> result string.
Variable tarball_uncompressed : string -> result string.
Variable mutate_validate : Image -> annotatedLayer -> option error.
Variable manifest_digest : list Descriptor -> list Hash -> Hash.
Variable name_ParseReference : string -> result Reference.
Variable os_RemoveAll : string -> FS -> FS.

Definition os_Open (fs : FS) (path : string) : result string :=
  match fs !! path with
  | Some bytes => Ok bytes
  | None => Err ("open " +:+ path +:+ ": no such file or directory")
  end.

Definition types_DockerLayer : string :=
  "application/vnd.docker.image.rootfs.diff.tar.gzip".

(** [tarball.LayerFromFile]: digest, size and diff ID are computed from
    the file as it is now; the readers open [path] when they are used. *)
Definition tarball_LayerFromFile (fs : FS) (path : string) : result Layer :=
  bytes ← os_Open fs path;
  ds ← tarball_computeDigest bytes;
  diff ← tarball_computeDiffID bytes;
  Ok {| Layer_Digest := Ok ds.1;
        Layer_DiffID := Ok diff;
        Layer_Compressed := fun fs' => b ← os_Open fs' path; tarball_compressed b;
        Layer_Uncompressed := fun fs' => b ← os_Open fs' path; tarball_uncompressed b;
        Layer_Size := Ok ds.2;
        Layer_MediaType := Ok types_DockerLayer |}.

(** [mutate.AppendLayers] with one layer. *)
Definition mutate_AppendLayers (base : Image) (al : annotatedLayer) : result Image :=
  match mutate_validate base al with
  | Some err => Err err
  | None => Ok (base ++ [al])
  end.

(** [Digest] of an image made by [mutate]: the descriptor and the diff ID
    of every layer go into the manifest and the config. *)
Definition Image_Digest (img : Image) : result Hash :=
  descs ← mapM annotatedLayer_Descriptor img;
  diffs ← mapM annotatedLayer_DiffID img;
  Ok (manifest_digest descs diffs).

Definition tarEntryName (index : nat) : string := "resource-" +:+ itoa index +:+ ".yaml".
Definition tarFileName (index : nat) : string := "resource-" +:+ itoa index +:+ ".tar".

Definition tarHeaderOf (res : resource) (index : nat) : tarHeader :=
  {| hdr_Name := tarEntryName index;
     hdr_Mode := 384;
     hdr_Size := Z.of_nat (String.length (content res)) |}.

(** The bytes [createTarball] leaves in the file: the header block and
    the content (the writer is never closed, so nothing follows). *)
Definition tarBytes (res : resource) (index : nat) : string :=
  tar_header_block (tarHeaderOf res index) +:+ content res.

Definition createTarball (w : World) (fs : FS) (name : string) (res : resource)
    (index : nat) : FS * option error :=
  match os_Create w name with
  | Some err => (fs, Some err)
  | None =>
    let fs := <[name := EmptyString]> fs in
    let hdr := tarHeaderOf res index in
    match tar_WriteHeader w name with
    | Some err => (fs, Some err)
    | None =>
      let fs := <[name := tar_header_block hdr]> fs in
      match tar_Write w name with
      | Some err => (fs, Some err)
      | None => (<[name := tar_header_block hdr +:+ content res]> fs, None)
      end
    end
  end.

Definition annotationsOf (k : resourceKey) : gmap string string :=
  {[ annotationAPIVersion := apiVersion k;
     annotationKind := kind k;
     annotationName := name k ]}.

(** [for index, resource := range resources]. *)
Fixpoint constructImage_loop (w : World) (tempDir : string) (index : nat)
    (resources : list resource) (image : Image) (fs : FS) : FS * result Image :=
  match resources with
  | [] => (fs, Ok image)
  | resource :: rest =>
    let tarname := filepath_Join tempDir (tarFileName index) in
    match createTarball w fs tarname resource index with
    | (fs, Some err) => (fs, Err ("creating tarball: " +:+ err))
    | (fs, None) =>
      match tarball_LayerFromFile fs tarname with
      | Err err => (fs, Err ("creating layer: " +:+ err))
      | Ok layer =>
        let annotations := annotationsOf (key resource) in
        let annotatedLayer := {| layer := layer; annotations := annotations |} in
        match mutate_AppendLayers image annotatedLayer with
        | Err err => (fs, Err ("appending layer: " +:+ err))
        | Ok image => constructImage_loop w tempDir (S index) rest image fs
        end
      end
    end
  end.

Definition tempDirOf (w : World) : string :=
  filepath_Join (os_TempDir w) ("tekton-bundler-" +:+ FormatInt (time_Now_UnixMicro w)).

Definition constructImage (w : World) (fs : FS) (resources : list resource)
    : FS * result Image :=
  let tempDir := tempDirOf w in
  match os_MkdirAll w tempDir with
  | Some err => (fs, Err ("making temp dir " +:+ tempDir +:+ ": " +:+ err))
  | None =>
    let '(fs', r) := constructImage_loop w tempDir 0 resources empty_Image fs in
    (os_RemoveAll tempDir fs', r)
  end.

(** [publishImage]: the line written to standard error and the result. *)
Definition publishImage (w : World) (image : Image) (ref : Reference)
    : list string * result string :=
  let log := ["Publishing image " +:+ ref_String ref +:+ LF] in
  match crane_Push w image (ref_String ref) with
  | Some err => (log, Err ("pushing image: " +:+ err))
  | None =>
    match Image_Digest image with
    | Err err => (log, Err ("fetching digest: " +:+ err))
    | Ok digest => (log, Ok digest)
    end
  end.

Definition usage : string :=
  "bundler --image=<some-image, e.g., gcr.io/example.my-bundle> <config.yaml> [config.yaml]...".

Definition tooMany (n : nat) : string :=
  "Too many resources, max " +:+ itoa maxResources +:+ ", found " +:+ itoa n +:+ ".".

Definition main (w : World) (fs : FS) (flags : Flags) : Run :=
  if help flags
  then {| stdout := [usage +:+ LF]; errout := []; exit_code := 0 |}
  else if bool_decide (length (flag_Args flags) = 0)
  then {| stdout := ["Must provide at least one config file." +:+ LF];
          errout := []; exit_code := 1 |}
  else if bool_decide (image flags = EmptyString)
  then {| stdout := ["--image is required." +:+ LF]; errout := []; exit_code := 1 |}
  else
    match name_ParseReference (image flags) with
    | Err err =>
      {| stdout := ["--image is invalid: " +:+ err]; errout := []; exit_code := 1 |}
    | Ok ref =>
      match parseFiles yaml_Unmarshal strconv_Quote (os_ReadFile w) (flag_Args flags) with
      | (log, Err err) =>
        {| stdout := ["Error reading files: " +:+ err]; errout := log; exit_code := 1 |}
      | (log, Ok resources) =>
        let out :=
          if bool_decide (maxResources < length resources)
          then [tooMany (length resources)] else [] in
        match constructImage w fs resources with
        | (_, Err err) =>
          {| stdout := out ++ ["Error constructing image: " +:+ err];
             errout := log; exit_code := 1 |}
        | (_, Ok image) =>
          match publishImage w image ref with
          | (log', Err err) =>
            {| stdout := out ++ ["Error publishing image: " +:+ err];
               errout := log ++ log'; exit_code := 1 |}
          | (log', Ok digest) =>
            {| stdout := out ++ [ref_Name ref +:+ "@" +:+ digest +:+ LF];
               errout := log ++ log'; exit_code := 0 |}
          end
        end
      end
    end.

(** *** What the image is expected to hold

    [resourceLayer tempDir index r] is the layer made from a staging file
    that holds exactly the archive of [r]; [layerMeta index r] is the
    descriptor and the diff ID such a layer shows, computed from [r] and
    its position alone. *)
Definition resourceLayer (tempDir : string) (index : nat) (r : resource)
    : result annotatedLayer :=
  let tarname := filepath_Join tempDir (tarFileName index) in
  l ← tarball_LayerFromFile {[ tarname := tarBytes r index ]} tarname;
  Ok {| layer := l; annotations := annotationsOf (key r) |}.

Definition layerMeta (index : nat) (r : resource) : result (Descriptor * Hash) :=
  ds ← tarball_computeDigest (tarBytes r index);
  diff ← tarball_computeDiffID (tarBytes r index);
  Ok ({| MediaType := types_DockerLayer; Size := ds.2; Digest := ds.1;
         Annotations := annotationsOf (key r) |}, diff).

(** The digest of the bundle of [rs], from [rs] alone. *)
Definition bundleDigest (rs : list resource) : result Hash :=
  metas ← mapM (fun ir => layerMeta ir.1 ir.2) (numbered 0 rs);
  Ok (manifest_digest metas.*1 metas.*2).

End Bundler.

(** ** Package [oci]: [lookupVerifier] and [cosignVerifier.Verify] *)

Section Verification.

(** The types of the collaborators: [context.Context], [authn.Keychain],
    [*ecdsa.PublicKey] and [signature.Verifier]. *)
Variables context_Context Keychain ecdsaPublicKey sigVerifier : Type.

(** [cosign.CheckOpts] as [Verify] fills it. *)
Record CheckOpts := {
  co_Annotations : gmap string string;
  co_RegistryClientOpts : Keychain * context_Context;
  co_SigVerifier : option sigVerifier;
}.

(** The libraries: [strings.TrimSpace], [strconv.Quote], and the signature
    backend.  A Go call that returns [(v, err)] and whose two results are
    both assigned is modelled by a pair. *)
Variable strings_TrimSpace : string -> string.
Variable strconv_Quote : string -> string.
Variable cosign_PemToECDSAKey : string -> result ecdsaPublicKey.
Variable signature_LoadECDSAVerifier :
  ecdsaPublicKey -> option sigVerifier * option error.
Variable cosignsignature_PublicKeyFromKeyRef :
  context_Context -> string -> option sigVerifier * option error.
Variable cosign_VerifyImageSignatures :
  context_Context -> Reference -> CheckOpts -> bool * option error.

Definition pemMarker : string := "-----BEGIN PUBLIC KEY-----".

Definition errConvertingPem (err : error) : error := "converting pem to ecdsa: " +:+ err.
Definition errLoadingKey (err : error) : error := "loading key: " +:+ err.
Definition errNotVerified (imgRef : Reference) : error :=
  "signature on " +:+ ref_String imgRef +:+ " was not verified".

Definition withSigVerifier (opts : CheckOpts) (v : option sigVerifier) : CheckOpts :=
  {| co_Annotations := co_Annotations opts;
     co_RegistryClientOpts := co_RegistryClientOpts opts;
     co_SigVerifier := v |}.

(** The block [if key != "" { ... }] of [Verify]: the left result is an
    early return, the right one the options the function goes on with.
    [err] is the variable declared by [var err error]; in the PEM branch
    the short declaration [ecdsa, err := ...] declares another [err], and
    the result of [LoadECDSAVerifier] is assigned to that inner one.
    [pubKey] is declared and never assigned, so the type assertion to a
    PKCS#11 key that follows always fails and no [Close] is deferred. *)
Definition loadKey (ctx : context_Context) (key : string) (cosignOpts : CheckOpts)
    : (bool * option error) + CheckOpts :=
  if bool_decide (key ≠ EmptyString) then
    let err : option error := None in
    let '(early, cosignOpts, err) :=
      if HasPrefix (strings_TrimSpace key) pemMarker then
        match cosign_PemToECDSAKey (strings_TrimSpace key) with
        | Err err_inner => (Some (false, Some (errConvertingPem err_inner)), cosignOpts, err)
        | Ok ecdsa =>
          let '(v, err_inner) := signature_LoadECDSAVerifier ecdsa in
          (None, withSigVerifier cosignOpts v, err)
        end
      else
        let '(v, err) := cosignsignature_PublicKeyFromKeyRef ctx key in
        (None, withSigVerifier cosignOpts v, err)
    in
    match early with
    | Some r => inl r
    | None =>
      match err with
      | Some e => inl (false, Some (errLoadingKey e))
      | None => inr cosignOpts
      end
    end
  else inr cosignOpts.

Definition cosignVerifier_Verify (ctx : context_Context) (imgRef : Reference) (key : string)
    (keychain : Keychain) : bool * option error :=
  let cosignOpts :=
    {| co_Annotations := ∅;
       co_RegistryClientOpts := (keychain, ctx);
       co_SigVerifier := None |} in
  match loadKey ctx key cosignOpts with
  | inl r => r
  | inr cosignOpts =>
    match cosign_VerifyImageSignatures ctx imgRef cosignOpts with
    | (_, Some err) => (false, Some err)
    | (verified, None) =>
      if negb verified
      then (false, Some (errNotVerified imgRef))
      else (true, None)
    end
  end.

(** The options [Verify] starts from. *)
Definition opts0 (ctx : context_Context) (keychain : Keychain) : CheckOpts :=
  {| co_Annotations := ∅;
     co_RegistryClientOpts := (keychain, ctx);
     co_SigVerifier := None |}.

(** The interface [Verifier] and its one implementation. *)
Record Verifier := {
  Verify : context_Context -> Reference -> string -> Keychain -> bool * option error;
}.

Definition cosignVerifier : Verifier := {| Verify := cosignVerifier_Verify |}.

Definition errUnknownSigner (signer : string) : error :=
  "unknown signer " +:+ strconv_Quote signer.

Definition lookupVerifier (signer : string) : result Verifier :=
  if bool_decide (signer = "cosign")
  then Ok cosignVerifier
  else Err (errUnknownSigner signer).

End Verification.

(** ** Concrete environments for the examples

    Small stand-ins for the libraries and the operating system, used only to
    run the program on explicit inputs. *)
Module Sample.

Fixpoint strip_prefix (p s : string) : option string :=
  match p, s with
  | EmptyString, _ => Some s
  | String a p', String b s' => if Ascii.eqb a b then strip_prefix p' s' else None
  | String _ _, EmptyString => None
  end.

Definition set_line (yr : YamlResource) (line : string) : YamlResource :=
  match strip_prefix "apiVersion: " line with
  | Some v => {| Kind := Kind yr; ApiVersion := v; Metadata := Metadata yr |}
  | None =>
    match strip_prefix "kind: " line with
    | Some v => {| Kind := v; ApiVersion := ApiVersion yr; Metadata := Metadata yr |}
    | None =>
      match strip_prefix "  name: " line with
      | Some v => {| Kind := Kind yr; ApiVersion := ApiVersion yr;
                     Metadata := {| Name := v |} |}
      | None => yr
      end
    end
  end.

(** A decoder for documents made of the lines [apiVersion: v], [kind: v],
    [metadata:] and [  name: v]; on those, and on the empty document, it
    gives what [yaml.Unmarshal] gives. *)
Definition Unmarshal (s : string) : result YamlResource :=
  Ok (foldl set_line zeroYamlResource (Split s LF)).

(** [strconv.Quote] on printable ASCII without quotes or backslashes. *)
Definition Quote (s : string) : string := DQ +:+ s +:+ DQ.

(** [os.ReadFile] on a disk given by its files. *)
Definition ReadFile (disk : list (string * string)) (filename : string)
    : result string :=
  match list_find (fun e => e.1 = filename) disk with
  | Some (_, (_, contents)) => Ok contents
  | None => Err ("open " +:+ filename +:+ ": no such file or directory")
  end.

Definition doc (v k n : string) : string :=
  "apiVersion: " +:+ v +:+ LF +:+ "kind: " +:+ k +:+ LF +:+
  "metadata:" +:+ LF +:+ "  name: " +:+ n +:+ LF.

Definition taskA : string := doc "tekton.dev/v1beta1" "Task" "a".
Definition pipelineB : string := doc "tekton.dev/v1beta1" "Pipeline" "b".
Definition jobC : string := doc "tekton.dev/v1beta1" "Job" "c".
Definition oldJob : string := doc "tekton.dev/v1alpha1" "Job" "d".

Definition keyA : resourceKey := ResourceKey "tekton.dev/v1beta1" "Task" "a".
Definition keyB : resourceKey := ResourceKey "tekton.dev/v1beta1" "Pipeline" "b".

(** The libraries of the bundler. *)
Definition Join (a b : string) : string := a +:+ "/" +:+ b.
Definition header (h : tarHeader) : string :=
  "[" +:+ hdr_Name h +:+ " " +:+ FormatInt (hdr_Mode h) +:+ " " +:+
  FormatInt (hdr_Size h) +:+ "]".
Definition computeDigest (bytes : string) : result (Hash * Z) :=
  Ok ("sha256:gz:" +:+ bytes, Z.of_nat (String.length bytes)).
Definition computeDiffID (bytes : string) : result Hash := Ok ("sha256:" +:+ bytes).
Definition compressed (bytes : string) : result string := Ok ("gz:" +:+ bytes).
Definition uncompressed (bytes : string) : result string := Ok bytes.
Definition validate (base : Image) (al : annotatedLayer) : option error := None.
Definition manifest (descs : list Descriptor) (diffs : list Hash) : Hash :=
  foldr (fun d acc => Digest d +:+ ";" +:+ acc) EmptyString descs +:+ "|" +:+
  foldr (fun d acc => d +:+ ";" +:+ acc) EmptyString diffs.
Definition ParseReference (s : string) : result Reference :=
  if bool_decide (s = EmptyString) then Err "could not parse reference"
  else Ok {| ref_Name := s; ref_String := s |}.
Definition RemoveAll (dir : string) (fs : FS) : FS :=
  filter (fun e => negb (String.prefix dir e.1)) fs.

(** A run at time [now] with staging under [tmp], reading [disk], where
    no call fails. *)
Definition world (tmp : string) (now : Z) (disk : list (string * string)) : World :=
  {| os_TempDir := tmp;
     time_Now_UnixMicro := now;
     os_ReadFile := ReadFile disk;
     os_MkdirAll := fun _ => None;
     os_Create := fun _ => None;
     tar_WriteHeader := fun _ => None;
     tar_Write := fun _ => None;
     crane_Push := fun _ _ => None |}.

Definition disk2 : list (string * string) :=
  [("a.yaml", taskA +:+ separator +:+ pipelineB)].
Definition w1 : World := world "/tmp" 1700000000000000 disk2.
Definition w2 : World := world "/var/tmp" 1700000000999999 disk2.

Definition rA : resource := {| key := keyA; content := taskA |}.
Definition rB : resource := {| key := keyB; content := pipelineB |}.

Definition constructImage' : World -> FS -> list resource -> FS * result Image :=
  constructImage Join header computeDigest computeDiffID compressed uncompressed
    validate RemoveAll.

Definition main' : World -> FS -> Flags -> Run :=
  main Unmarshal Quote Join header computeDigest computeDiffID compressed
    uncompressed validate manifest ParseReference RemoveAll.

(** The two-resource bundle built in the world [w], and its image. *)
Definition built (w : World) : FS * result Image := constructImage' w ∅ [rA; rB].
Definition imageOf (w : World) : Image :=
  match (built w).2 with Ok img => img | Err _ => [] end.

(** The loop of [constructImage] on the two resources, staging under
    [/tmp/stage], before any cleanup. *)
Definition staged : FS * result Image :=
  constructImage_loop Join header computeDigest computeDiffID compressed uncompressed
    validate w1 "/tmp/stage" 0 [rA; rB] empty_Image ∅.

(** Twelve tasks in one file. *)
Definition names12 : list string :=
  ["a"; "b"; "c"; "d"; "e"; "f"; "g"; "h"; "i"; "j"; "k"; "l"].
Definition contents12 : string :=
  foldr (fun n acc =>
           doc "tekton.dev/v1beta1" "Task" n +:+
           (if bool_decide (acc = EmptyString) then acc else separator +:+ acc))
        EmptyString names12.
Definition w12 : World := world "/tmp" 1700000000000000 [("twelve.yaml", contents12)].
Definition flags12 : Flags :=
  {| help := false; image := "gcr.io/example/my-bundle"; flag_Args := ["twelve.yaml"] |}.

(** The signature backend: a PEM parser and key loader that accept any
    text, and a registry that answers as [answer] says. *)
Definition TrimSpace_drop : string -> string :=
  fix go s :=
    match s with
    | String c s' =>
      if (Ascii.eqb c " " || Ascii.eqb c "010" || Ascii.eqb c "009" || Ascii.eqb c "013")%char
      then go s' else s
    | EmptyString => EmptyString
    end.
Definition TrimSpace (s : string) : string :=
  String.rev (TrimSpace_drop (String.rev (TrimSpace_drop s))).
Definition PemToECDSAKey (pem : string) : result string := Ok pem.
Definition LoadECDSAVerifier (k : string) : option string * option error :=
  (Some k, None).
Definition LoadECDSAVerifier_failing (k : string) : option string * option error :=
  (None, Some "invalid ECDSA public key specified").
Definition PublicKeyFromKeyRef (_ : unit) (keyRef : string)
    : option string * option error :=
  (Some keyRef, None).
Definition backend (answer : bool * option error) (_ : unit) (_ : Reference)
    (_ : CheckOpts unit unit string) : bool * option error := answer.

Definition imgRef : Reference :=
  {| ref_Name := "gcr.io/example/my-bundle";
     ref_String := "gcr.io/example/my-bundle:latest" |}.
Definition pemKey : string :=
  "-----BEGIN PUBLIC KEY-----" +:+ LF +:+ "MFkw" +:+ LF +:+
  "-----END PUBLIC KEY-----" +:+ LF.

End Sample.

Arguments CheckOpts : clear implicits.
Arguments loadKey {context_Context Keychain ecdsaPublicKey sigVerifier}.
Arguments cosignVerifier_Verify {context_Context Keychain ecdsaPublicKey sigVerifier}.
Arguments cosignVerifier {context_Context Keychain ecdsaPublicKey sigVerifier}.
Arguments lookupVerifier {context_Context Keychain ecdsaPublicKey sigVerifier}.
Arguments withSigVerifier {context_Context Keychain sigVerifier}.
Arguments opts0 {context_Context Keychain sigVerifier}.
Arguments Verify {context_Context Keychain}.

(** * Properties *)

(** ** Strings *)

Lemma append_nil_l (s : string) : EmptyString +:+ s = s.
Proof. reflexivity. Qed.

Lemma append_cons (x : ascii) (a b : string) : String x a +:+ b = String x (a +:+ b).
Proof. reflexivity. Qed.

Lemma append_nil_r (s : string) : s +:+ EmptyString = s.
Proof. induction s as [|x s IH]; [done | by rewrite append_cons, IH]. Qed.

Lemma append_assoc (a b c : string) : (a +:+ b) +:+ c = a +:+ (b +:+ c).
Proof. induction a as [|x a IH]; [done | by rewrite !append_cons, IH]. Qed.

Lemma Contains_refl (s : string) : Contains s s.
Proof.
  exists EmptyString, EmptyString. by rewrite append_nil_l, append_nil_r.
Qed.

Lemma Contains_prepend (p s sub : string) : Contains s sub -> Contains (p +:+ s) sub.
Proof.
  intros (pre & post & ->). exists (p +:+ pre), post. by rewrite append_assoc.
Qed.

Lemma Contains_append (s q sub : string) : Contains s sub -> Contains (s +:+ q) sub.
Proof.
  intros (pre & post & ->). exists pre, (post +:+ q). by rewrite !append_assoc.
Qed.

(** ** Splitting on the separator *)

Lemma prefix_append (p t : string) : String.prefix p (p +:+ t) = true.
Proof.
  induction p as [|a p IH]; [by destruct t|].
  rewrite append_cons. simpl. destruct (ascii_dec a a); [exact IH | congruence].
Qed.

Lemma Split_from_nonempty sep skip cur s : Split_from sep skip cur s ≠ [].
Proof.
  revert skip cur. induction s as [|c s IH]; intros skip cur; cbn [Split_from]; [done|].
  destruct skip as [|k]; [|apply IH].
  destruct (String.prefix sep (String c s)); [done | apply IH].
Qed.

Lemma last_cons_nonempty {A} (x : A) (l : list A) : l ≠ [] -> last (x :: l) = last l.
Proof. by destruct l. Qed.

(** An empty text has one part, the empty one. *)
Lemma Split_empty : Split EmptyString separator = [EmptyString].
Proof. reflexivity. Qed.

(** A text that begins with the separator has an empty first part. *)
Lemma Split_leading (t : string) :
  Split (separator +:+ t) separator = EmptyString :: Split t separator.
Proof.
  unfold Split.
  change (separator +:+ t) with (String "-" ((String "-" (String "-" LF)) +:+ t)).
  cbn [Split_from].
  change (String "-" ((String "-" (String "-" LF)) +:+ t)) with (separator +:+ t).
  rewrite prefix_append. reflexivity.
Qed.

Lemma separator_no_overlap (a b c : ascii) (u : string) :
  String.prefix separator (String a (u +:+ separator)) = true ->
  u = EmptyString ∨ u = String b EmptyString ∨ u = String b (String c EmptyString) ->
  False.
Proof.
  intros Hp [->|[->| ->]]; revert Hp; vm_compute;
    repeat (match goal with
            | |- context [ascii_dec ?x ?y] => destruct (ascii_dec x y)
            | |- context [Ascii.ascii_rec _ _ ?x] => destruct x
            | |- context [if ?x then _ else _] => destruct x
            end; try discriminate); discriminate.
Qed.

Lemma Split_from_trailing (s : string) :
  ∀ skip cur, ends_cut skip cur s ->
    last (Split_from separator skip cur s) = Some EmptyString.
Proof.
  induction s as [|c s IH]; intros skip cur Hcut.
  - destruct Hcut as [(u & Hu & _)|[-> ->]]; [|reflexivity].
    destruct u; vm_compute in Hu; discriminate Hu.
  - destruct skip as [|k]; cbn [Split_from].
    + destruct Hcut as [(u & Hu & _)|[Hlen _]]; [|discriminate Hlen].
      destruct (String.prefix separator (String c s)) eqn:Hp.
      * rewrite last_cons_nonempty by apply Split_from_nonempty. apply IH.
        destruct u as [|a [|b [|d [|e u]]]].
        -- right. vm_compute in Hu. injection Hu as _ ->. by split.
        -- exfalso. rewrite Hu in Hp. rewrite append_cons in Hp.
           eapply (separator_no_overlap a a a EmptyString); [exact Hp | by left].
        -- exfalso. rewrite Hu in Hp. rewrite append_cons in Hp.
           eapply (separator_no_overlap a b b (String b EmptyString));
             [exact Hp | right; by left].
        -- exfalso. rewrite Hu in Hp. rewrite append_cons in Hp.
           eapply (separator_no_overlap a b d (String b (String d EmptyString)));
             [exact Hp | right; by right].
        -- left. exists (String b (String d (String e u))). split.
           ++ rewrite append_cons in Hu. by injection Hu as _ ->.
           ++ change (String.length separator - 1) with 3. simpl. lia.
      * apply IH. left. destruct u as [|a u].
        -- exfalso. rewrite Hu in Hp. vm_compute in Hp. discriminate Hp.
        -- exists u. rewrite append_cons in Hu. injection Hu as _ ->. split; [done | lia].
    + apply IH. destruct Hcut as [(u & Hu & Hle)|[Hlen ->]].
      * left. destruct u as [|a u]; [simpl in Hle; lia|].
        exists u. rewrite append_cons in Hu. injection Hu as _ ->.
        split; [done | simpl in Hle; lia].
      * right. simpl in Hlen. split; [lia | done].
Qed.

(** A text that ends with the separator has an empty last part. *)
Lemma Split_trailing (t : string) :
  last (Split (t +:+ separator) separator) = Some EmptyString.
Proof. apply Split_from_trailing. left. exists t. split; [done | lia]. Qed.

(** In the three cases splitting produces an empty part. *)
Lemma Split_has_empty_part (contents : string) :
  contents = EmptyString ∨
  (∃ t, contents = separator +:+ t) ∨
  (∃ t, contents = t +:+ separator) ->
  EmptyString ∈ Split contents separator.
Proof.
  intros [->|[[t ->]|[t ->]]].
  - rewrite Split_empty. apply list_elem_of_here.
  - rewrite Split_leading. apply list_elem_of_here.
  - pose proof (Split_trailing t) as Hl. apply last_Some in Hl as [l' ->].
    apply elem_of_app. right. apply list_elem_of_here.
Qed.

(** ** The signature verifier *)

Section VerificationFacts.

Context {context_Context Keychain ecdsaPublicKey sigVerifier : Type}.
Variable strings_TrimSpace : string -> string.
Variable strconv_Quote : string -> string.
Variable cosign_PemToECDSAKey : string -> result ecdsaPublicKey.
Variable signature_LoadECDSAVerifier :
  ecdsaPublicKey -> option sigVerifier * option error.
Variable cosignsignature_PublicKeyFromKeyRef :
  context_Context -> string -> option sigVerifier * option error.
Variable cosign_VerifyImageSignatures :
  context_Context -> Reference -> CheckOpts context_Context Keychain sigVerifier ->
  bool * option error.

Local Abbreviation load :=
  (loadKey strings_TrimSpace cosign_PemToECDSAKey signature_LoadECDSAVerifier
     cosignsignature_PublicKeyFromKeyRef).
Local Abbreviation verify :=
  (cosignVerifier_Verify strings_TrimSpace cosign_PemToECDSAKey
     signature_LoadECDSAVerifier cosignsignature_PublicKeyFromKeyRef
     cosign_VerifyImageSignatures).

(** An early return of the key block is a refusal with an error. *)
Lemma loadKey_early ctx key (opts : CheckOpts context_Context Keychain sigVerifier) r :
  load ctx key opts = inl r -> ∃ e, r = (false, Some e).
Proof.
  unfold loadKey. case_bool_decide; [|done].
  destruct (HasPrefix _ _).
  - destruct (cosign_PemToECDSAKey _) as [k|e].
    + destruct (signature_LoadECDSAVerifier k) as [v e']. simpl. done.
    + simpl. intros [= <-]. eauto.
  - destruct (cosignsignature_PublicKeyFromKeyRef ctx key) as [v [e|]]; simpl.
    + intros [= <-]. eauto.
    + done.
Qed.

(** With no key material the options are passed on as they are. *)
Lemma loadKey_no_key ctx (opts : CheckOpts context_Context Keychain sigVerifier) :
  load ctx EmptyString opts = inr opts.
Proof. unfold loadKey. by rewrite bool_decide_false by (by intros []). Qed.

(** The PEM branch: the trimmed text is parsed, the parsed key goes to
    [LoadECDSAVerifier], and what that returns becomes the signature
    verifier, whatever error comes with it. *)
Lemma loadKey_pem ctx key (opts : CheckOpts context_Context Keychain sigVerifier) k v e :
  key ≠ EmptyString ->
  HasPrefix (strings_TrimSpace key) pemMarker = true ->
  cosign_PemToECDSAKey (strings_TrimSpace key) = Ok k ->
  signature_LoadECDSAVerifier k = (v, e) ->
  load ctx key opts = inr (withSigVerifier opts v).
Proof.
  intros Hk Hp Hpem Hl. unfold loadKey.
  rewrite bool_decide_true by done. rewrite Hp, Hpem, Hl. done.
Qed.

Lemma loadKey_pem_malformed ctx key (opts : CheckOpts context_Context Keychain sigVerifier) e :
  key ≠ EmptyString ->
  HasPrefix (strings_TrimSpace key) pemMarker = true ->
  cosign_PemToECDSAKey (strings_TrimSpace key) = Err e ->
  load ctx key opts = inl (false, Some (errConvertingPem e)).
Proof.
  intros Hk Hp Hpem. unfold loadKey.
  rewrite bool_decide_true by done. by rewrite Hp, Hpem.
Qed.

Lemma loadKey_keyref ctx key (opts : CheckOpts context_Context Keychain sigVerifier) v e :
  key ≠ EmptyString ->
  HasPrefix (strings_TrimSpace key) pemMarker = false ->
  cosignsignature_PublicKeyFromKeyRef ctx key = (v, e) ->
  load ctx key opts =
    match e with
    | Some err => inl (false, Some (errLoadingKey err))
    | None => inr (withSigVerifier opts v)
    end.
Proof.
  intros Hk Hp Hr. unfold loadKey.
  rewrite bool_decide_true by done. rewrite Hp, Hr. by destruct e.
Qed.

(** What [Verify] returns once the key block has let it through. *)
Lemma Verify_after_key ctx imgRef key keychain opts :
  load ctx key (opts0 ctx keychain) = inr opts ->
  verify ctx imgRef key keychain =
    match cosign_VerifyImageSignatures ctx imgRef opts with
    | (_, Some err) => (false, Some err)
    | (verified, None) =>
      if negb verified then (false, Some (errNotVerified imgRef)) else (true, None)
    end.
Proof. intros H. unfold cosignVerifier_Verify. unfold opts0 in H. by rewrite H. Qed.

(** C1 (as amended).  [Verify] never mixes its two results: it returns
    either [(true, nil)] or [(false, err)] with an error.  It returns
    [(true, nil)] only when the backend, queried with the options the key
    block produced, reports a valid signature without error.  When the
    backend reports none, the result is [false] with the error naming the
    reference; when the backend call itself returns an error, the result is
    [false] with that very error, passed on unchanged. *)
Theorem Verify_verdict ctx imgRef key keychain :
  let r := verify ctx imgRef key keychain in
  (r = (true, None) ∨ ∃ e, r = (false, Some e)) ∧
  (r = (true, None) ->
     ∃ opts, load ctx key (opts0 ctx keychain) = inr opts ∧
             cosign_VerifyImageSignatures ctx imgRef opts = (true, None)) ∧
  (∀ opts, load ctx key (opts0 ctx keychain) = inr opts ->
     cosign_VerifyImageSignatures ctx imgRef opts = (false, None) ->
     r = (false, Some (errNotVerified imgRef))) ∧
  (∀ opts verified err, load ctx key (opts0 ctx keychain) = inr opts ->
     cosign_VerifyImageSignatures ctx imgRef opts = (verified, Some err) ->
     r = (false, Some err)).
Proof.
  intros r. subst r.
  destruct (load ctx key (opts0 ctx keychain)) as [early|opts] eqn:Hload.
  - destruct (loadKey_early _ _ _ _ Hload) as [e ->].
    assert (Hr : verify ctx imgRef key keychain = (false, Some e)).
    { unfold cosignVerifier_Verify. unfold opts0 in Hload. by rewrite Hload. }
    rewrite Hr. split_and!; [by eauto | done | done | done].
  - rewrite (Verify_after_key _ _ _ _ _ Hload).
    destruct (cosign_VerifyImageSignatures ctx imgRef opts) as [[] [err|]] eqn:Hq;
      simpl; (split_and!;
        [ by eauto
        | intros; try done; by eauto
        | by intros ? [= <-]; rewrite Hq
        | by intros ? ? ? [= <-]; rewrite Hq; intros [= <- <-] ]).
Qed.

(** C9.  In the PEM branch the trimmed key text is parsed and the parsed
    key is handed to [LoadECDSAVerifier]; what that call returns becomes
    the signature verifier.  The error it returns is assigned to the [err]
    of the inner block and never looked at: [Verify] goes on to query the
    backend with the returned verifier and answers from the backend alone. *)
Theorem Verify_pem_load_error_ignored ctx imgRef key keychain k v e :
  key ≠ EmptyString ->
  HasPrefix (strings_TrimSpace key) pemMarker = true ->
  cosign_PemToECDSAKey (strings_TrimSpace key) = Ok k ->
  signature_LoadECDSAVerifier k = (v, Some e) ->
  verify ctx imgRef key keychain =
    match cosign_VerifyImageSignatures ctx imgRef
            (withSigVerifier (opts0 ctx keychain) v) with
    | (_, Some err) => (false, Some err)
    | (verified, None) =>
      if negb verified then (false, Some (errNotVerified imgRef)) else (true, None)
    end.
Proof.
  intros Hk Hp Hpem Hl. apply Verify_after_key.
  by apply loadKey_pem with (k := k) (e := Some e).
Qed.

(** The rest of what C9 says holds: a PEM text that does not parse, and a
    key reference that does not resolve, end [Verify] with [false] and a
    key-loading error, whatever the backend would have answered. *)
Lemma Verify_key_failure ctx imgRef key keychain :
  key ≠ EmptyString ->
  (∀ e, HasPrefix (strings_TrimSpace key) pemMarker = true ->
        cosign_PemToECDSAKey (strings_TrimSpace key) = Err e ->
        verify ctx imgRef key keychain = (false, Some (errConvertingPem e))) ∧
  (∀ v e, HasPrefix (strings_TrimSpace key) pemMarker = false ->
          cosignsignature_PublicKeyFromKeyRef ctx key = (v, Some e) ->
          verify ctx imgRef key keychain = (false, Some (errLoadingKey e))).
Proof.
  intros Hk. split.
  - intros e Hp Hpem. unfold cosignVerifier_Verify.
    by rewrite (loadKey_pem_malformed _ _ _ e Hk Hp Hpem).
  - intros v e Hp Hr. unfold cosignVerifier_Verify.
    by rewrite (loadKey_keyref _ _ _ v (Some e) Hk Hp Hr).
Qed.

(** C6.  [lookupVerifier] returns the cosign verifier, and no error, for the
    name [cosign]; for every other name it returns no verifier and the
    error [unknown signer] followed by the quoted name. *)
Theorem lookupVerifier_spec (signer : string) :
  let r := lookupVerifier strings_TrimSpace strconv_Quote cosign_PemToECDSAKey
             signature_LoadECDSAVerifier cosignsignature_PublicKeyFromKeyRef
             cosign_VerifyImageSignatures signer in
  (signer = "cosign" ∧
   r = Ok (cosignVerifier strings_TrimSpace cosign_PemToECDSAKey
             signature_LoadECDSAVerifier cosignsignature_PublicKeyFromKeyRef
             cosign_VerifyImageSignatures)) ∨
  (signer ≠ "cosign" ∧
   r = Err ("unknown signer " +:+ strconv_Quote signer) ∧
   ∀ e, r = Err e -> Contains e (strconv_Quote signer)).
Proof.
  intros r. subst r. unfold lookupVerifier. case_bool_decide as Hs.
  - left. done.
  - right. split_and!; [done | done |].
    intros e [= <-]. apply Contains_prepend, Contains_refl.
Qed.

End VerificationFacts.

(** ** Resource extraction *)

Section ExtractionFacts.

Variable yaml_Unmarshal : string -> result YamlResource.
Variable strconv_Quote : string -> string.
Variable os_ReadFile : string -> result string.

Local Abbreviation parse := (parseResource yaml_Unmarshal strconv_Quote).
Local Abbreviation process := (process_part yaml_Unmarshal strconv_Quote).
Local Abbreviation runs := (run yaml_Unmarshal strconv_Quote).
Local Abbreviation passes := (yields yaml_Unmarshal strconv_Quote).
Local Abbreviation all_events := (events os_ReadFile).
Local Abbreviation extract := (parseFiles yaml_Unmarshal strconv_Quote os_ReadFile).
Local Abbreviation loop := (parseFiles_loop yaml_Unmarshal strconv_Quote os_ReadFile).

Lemma at_part_located (filename : string) (index : nat) :
  Contains (at_part filename index) ("filename " +:+ filename +:+ ", index " +:+ itoa index).
Proof.
  exists "(", ")". unfold at_part. by rewrite !append_assoc.
Qed.

(** *** The two loops are one loop over the events *)

Lemma run_app evs1 evs2 st :
  runs (evs1 ++ evs2) st =
    match runs evs1 st with
    | (st', Some err) => (st', Some err)
    | (st', None) => runs evs2 st'
    end.
Proof.
  revert st. induction evs1 as [|[f e|f i p] evs1 IH]; intros st; simpl; [done..|].
  destruct (process f i p st) as [st' [err|]]; [done | apply IH].
Qed.

Lemma parseParts_run filename index parts st :
  parseParts yaml_Unmarshal strconv_Quote filename index parts st =
  runs (parts_from filename index parts) st.
Proof.
  revert index st. induction parts as [|p parts IH]; intros index st; simpl; [done|].
  destruct (process filename index p st) as [st' [err|]]; [done | apply IH].
Qed.

Lemma parseFiles_loop_run filenames st :
  loop filenames st = runs (all_events filenames) st.
Proof.
  revert st. induction filenames as [|f rest IH]; intros st; [done|].
  change (all_events (f :: rest)) with (file_events os_ReadFile f ++ all_events rest).
  rewrite run_app. simpl. unfold file_events.
  destruct (os_ReadFile f) as [contents|err]; [|done].
  rewrite parseParts_run.
  destruct (runs _ st) as [st' [err|]]; [done | apply IH].
Qed.

(** *** One part *)

Lemma process_part_ok filename index part st st' :
  process filename index part st = (st', None) ->
  ∃ r, parse part filename index = Ok r ∧ keys st !! key r = None ∧
       resources st' = resources st ++ [r] ∧ keys st' = <[key r := true]> (keys st).
Proof.
  unfold process_part. destruct (parse part filename index) as [r|err]; [|done].
  destruct (keys st !! key r) eqn:Hk; [done|].
  intros [= <-]. by exists r.
Qed.

Lemma process_part_err filename index part st st' err :
  process filename index part st = (st', Some err) ->
  resources st' = resources st ∧ keys st' = keys st.
Proof.
  unfold process_part. destruct (parse part filename index) as [r|e].
  - destruct (keys st !! key r); [|done]. by intros [= <- _].
  - by intros [= <- _].
Qed.

Lemma index_ok_empty : index_ok extraction0.
Proof.
  split; [constructor|]. intros k. simpl. rewrite lookup_empty.
  split; [by intros [? ?] | by intros ?%elem_of_nil].
Qed.

Lemma index_ok_insert st st' (r : resource) :
  index_ok st -> keys st !! key r = None ->
  resources st' = resources st ++ [r] -> keys st' = <[key r := true]> (keys st) ->
  index_ok st'.
Proof.
  intros [Hnd Hdom] Hfresh Hr Hk. split.
  - rewrite Hr, fmap_app. apply NoDup_app. split_and!; [done | | apply NoDup_singleton].
    intros k Hin ->%list_elem_of_singleton.
    apply Hdom in Hin. rewrite Hfresh in Hin. by destruct Hin.
  - intros k. rewrite Hr, Hk, fmap_app, elem_of_app, <- Hdom.
    destruct (decide (key r = k)) as [<-|Hne].
    + rewrite lookup_insert_eq.
      split; [intros _; right; by apply list_elem_of_singleton | by eauto].
    + rewrite lookup_insert_ne by done. split; [by left|].
      intros [?|Hin]; [done|]. apply list_elem_of_singleton in Hin. congruence.
Qed.

(** *** The whole run *)

Lemma run_index_ok evs st : index_ok st -> index_ok (runs evs st).1.
Proof.
  revert st. induction evs as [|[f e|f i p] evs IH]; intros st Hst; simpl; [done..|].
  destruct (process f i p st) as [st' [err|]] eqn:Ha.
  - apply process_part_err in Ha as [Hr Hk]. destruct Hst as [Hnd Hdom]. simpl.
    split; [by rewrite Hr | intros k; by rewrite Hr, Hk].
  - apply process_part_ok in Ha as (r & _ & Hfresh & Hr & Hk).
    apply IH. by eapply index_ok_insert.
Qed.

Lemma run_ok evs st st' :
  index_ok st -> runs evs st = (st', None) ->
  ∃ rs, resources st' = resources st ++ rs ∧ Forall2 passes evs rs.
Proof.
  revert st. induction evs as [|[f e|f i p] evs IH]; intros st Hst; simpl.
  - intros [= <-]. exists []. by rewrite app_nil_r.
  - done.
  - destruct (process f i p st) as [st1 [err|]] eqn:Ha; [done|].
    apply process_part_ok in Ha as (r & Hp & Hfresh & Hr & Hk).
    intros Hrun. apply IH in Hrun as (rs & Hrs & Hall); [|by eapply index_ok_insert].
    exists (r :: rs). split; [by rewrite Hrs, Hr, <- app_assoc | by constructor].
Qed.

Lemma passes_inj ev r1 r2 : passes ev r1 -> passes ev r2 -> r1 = r2.
Proof. destruct ev; simpl; [done | congruence]. Qed.

(** Parts that all pass and whose keys are new are all accepted. *)
Lemma run_accepts evs rs st :
  index_ok st -> Forall2 passes evs rs -> NoDup (key <$> (resources st ++ rs)) ->
  ∃ st', runs evs st = (st', None) ∧ resources st' = resources st ++ rs ∧ index_ok st'.
Proof.
  intros Hst Hall. revert st Hst.
  induction Hall as [|ev r evs rs Hp Hall IH]; intros st Hst Hnd; simpl.
  - exists st. by rewrite app_nil_r.
  - destruct ev as [f e|f i p]; [done|]. simpl in Hp. unfold process_part. rewrite Hp.
    assert (Hfresh : keys st !! key r = None).
    { destruct (keys st !! key r) eqn:Hk; [|done]. exfalso.
      assert (Hin : key r ∈ key <$> resources st) by (apply Hst; eauto).
      rewrite fmap_app in Hnd. apply NoDup_app in Hnd as (_ & Hdisj & _).
      apply (Hdisj _ Hin). rewrite fmap_cons. apply list_elem_of_here. }
    rewrite Hfresh.
    set (st1 := {| resources := resources st ++ [r];
                   keys := <[key r := true]> (keys st);
                   stderr := stderr st ++ [logFound (key r) f i] |}).
    assert (Hst1 : index_ok st1) by (by eapply (index_ok_insert st st1 r)).
    destruct (IH st1 Hst1) as (st' & Hrun & Hr & Hok).
    { simpl. by rewrite <- app_assoc. }
    exists st'. split_and!; [done | | done]. rewrite Hr. simpl. by rewrite <- app_assoc.
Qed.

(** The first part whose key was already accepted ends the run with the
    duplicate error for that key. *)
Lemma run_first_repeat pre f i p post rs r st :
  index_ok st -> Forall2 passes pre rs -> NoDup (key <$> (resources st ++ rs)) ->
  parse p f i = Ok r -> key r ∈ key <$> (resources st ++ rs) ->
  (runs (pre ++ EPart f i p :: post) st).2 = Some (errDuplicate (key r)).
Proof.
  intros Hst Hall Hnd Hp Hin.
  destruct (run_accepts pre rs st Hst Hall Hnd) as (st' & Hrun & Hr & Hok).
  rewrite run_app, Hrun. simpl. unfold process_part. rewrite Hp.
  rewrite <- Hr in Hin. apply Hok in Hin as [b Hb]. by rewrite Hb.
Qed.

(** A part that does not pass, reached with everything before it accepted,
    ends the run with its own error. *)
Lemma run_first_failure pre f i p post rs err st :
  index_ok st -> Forall2 passes pre rs -> NoDup (key <$> (resources st ++ rs)) ->
  parse p f i = Err err ->
  (runs (pre ++ EPart f i p :: post) st).2 = Some (errParsing err).
Proof.
  intros Hst Hall Hnd Hp.
  destruct (run_accepts pre rs st Hst Hall Hnd) as (st' & Hrun & Hr & Hok).
  rewrite run_app, Hrun. simpl. unfold process_part. by rewrite Hp.
Qed.

(** Two parts with one key cannot both be accepted. *)
Lemma run_repeat_fails evs st i j e1 e2 r1 r2 :
  index_ok st -> i ≠ j -> evs !! i = Some e1 -> evs !! j = Some e2 ->
  passes e1 r1 -> passes e2 r2 -> key r1 = key r2 ->
  ∃ err, (runs evs st).2 = Some err.
Proof.
  intros Hst Hij Hi Hj H1 H2 Hkey.
  destruct (runs evs st) as [st' [err|]] eqn:Hrun; [by eauto|]. exfalso.
  pose proof (run_index_ok evs st Hst) as [Hnd _]. rewrite Hrun in Hnd. simpl in Hnd.
  destruct (run_ok _ _ _ Hst Hrun) as (rs & Hr & Hall).
  rewrite Hr, fmap_app in Hnd. apply NoDup_app in Hnd as (_ & _ & Hnd).
  destruct (Forall2_lookup_l _ _ _ _ _ Hall Hi) as (r1' & Hr1 & Hp1).
  destruct (Forall2_lookup_l _ _ _ _ _ Hall Hj) as (r2' & Hr2 & Hp2).
  rewrite (passes_inj _ _ _ Hp1 H1) in Hr1. rewrite (passes_inj _ _ _ Hp2 H2) in Hr2.
  apply Hij. eapply NoDup_lookup; [exact Hnd | |].
  - by rewrite list_lookup_fmap, Hr1.
  - rewrite list_lookup_fmap, Hr2. simpl. by rewrite Hkey.
Qed.

(** A part that does not pass makes the run fail, wherever it stands. *)
Lemma run_bad_part_fails evs st f i p err :
  index_ok st -> EPart f i p ∈ evs -> parse p f i = Err err ->
  ∃ e, (runs evs st).2 = Some e.
Proof.
  intros Hst Hin Hp.
  destruct (runs evs st) as [st' [e|]] eqn:Hrun; [by eauto|]. exfalso.
  destruct (run_ok _ _ _ Hst Hrun) as (rs & _ & Hall).
  apply list_elem_of_lookup in Hin as [n Hn].
  destruct (Forall2_lookup_l _ _ _ _ _ Hall Hn) as (r & _ & Hpass).
  simpl in Hpass. congruence.
Qed.

(** *** [parseFiles] *)

Lemma parseFiles_result filenames :
  (extract filenames).2 =
    match runs (all_events filenames) extraction0 with
    | (_, Some err) => Err err
    | (st, None) => Ok (resources st)
    end.
Proof.
  unfold parseFiles. rewrite parseFiles_loop_run.
  by destruct (runs _ extraction0) as [st [err|]].
Qed.

(** The resources come out in the order of the events: file order, then
    the order of the parts in each file. *)
Lemma parseFiles_order filenames rs :
  (extract filenames).2 = Ok rs -> Forall2 passes (all_events filenames) rs.
Proof.
  rewrite parseFiles_result.
  destruct (runs _ extraction0) as [st [err|]] eqn:Hrun; [done|]. intros [= <-].
  destruct (run_ok _ _ _ index_ok_empty Hrun) as (rs & -> & Hall). done.
Qed.

Lemma parts_from_elem filename index parts p :
  p ∈ parts -> ∃ i, EPart filename i p ∈ parts_from filename index parts.
Proof.
  revert index. induction parts as [|q parts IH]; intros index Hin.
  - by apply elem_of_nil in Hin.
  - apply elem_of_cons in Hin as [->|Hin].
    + exists index. apply list_elem_of_here.
    + destruct (IH (S index) Hin) as [i Hi]. exists i. by apply list_elem_of_further.
Qed.

Lemma events_elem filenames f contents p :
  f ∈ filenames -> os_ReadFile f = Ok contents -> p ∈ Split contents separator ->
  ∃ i, EPart f i p ∈ all_events filenames.
Proof.
  intros Hf Hread Hp.
  destruct (parts_from_elem f 0 _ p Hp) as [i Hi]. exists i.
  apply list_elem_of_bind. exists f. split; [|done].
  unfold file_events. by rewrite Hread.
Qed.

(** C7.  [parseResource] checks in a fixed order: the decoding, then the
    API version, then the kind, then the name.  The error is that of the
    first check that fails, whatever the later fields hold, and every error
    carries the file name and the index of the part. *)
Theorem parseResource_first_failure (s filename : string) (index : nat) :
  (∀ err, yaml_Unmarshal s = Err err ->
     parse s filename index = Err (errUnmarshal filename index err)) ∧
  (∀ yr, yaml_Unmarshal s = Ok yr -> ApiVersion yr ≠ "tekton.dev/v1beta1" ->
     parse s filename index = Err (errAPIVersion filename index)) ∧
  (∀ yr, yaml_Unmarshal s = Ok yr -> ApiVersion yr = "tekton.dev/v1beta1" ->
     Kind yr ≠ "Task" -> Kind yr ≠ "Pipeline" ->
     parse s filename index = Err (errKind strconv_Quote (Kind yr) filename index)) ∧
  (∀ yr, yaml_Unmarshal s = Ok yr -> ApiVersion yr = "tekton.dev/v1beta1" ->
     Kind yr = "Task" ∨ Kind yr = "Pipeline" -> Name (Metadata yr) = EmptyString ->
     parse s filename index = Err (errName filename index)) ∧
  (∀ yr, yaml_Unmarshal s = Ok yr -> ApiVersion yr = "tekton.dev/v1beta1" ->
     Kind yr = "Task" ∨ Kind yr = "Pipeline" -> Name (Metadata yr) ≠ EmptyString ->
     parse s filename index =
       Ok {| key := {| apiVersion := ApiVersion yr; kind := Kind yr;
                       name := Name (Metadata yr) |};
             content := s |}) ∧
  (∀ e, parse s filename index = Err e ->
     Contains e ("filename " +:+ filename +:+ ", index " +:+ itoa index)).
Proof.
  unfold parseResource. split_and!.
  - by intros err ->.
  - intros yr -> Hv. by rewrite bool_decide_false.
  - intros yr -> Hv Hk1 Hk2.
    rewrite (bool_decide_true _ Hv), (bool_decide_false _ Hk1), (bool_decide_false _ Hk2).
    done.
  - intros yr -> Hv Hk Hn. rewrite (bool_decide_true _ Hv), (bool_decide_true _ Hn).
    by destruct Hk as [Hk|Hk]; rewrite (bool_decide_true _ Hk);
      [|destruct (bool_decide (Kind yr = "Task"))].
  - intros yr -> Hv Hk Hn. rewrite (bool_decide_true _ Hv), (bool_decide_false _ Hn).
    by destruct Hk as [Hk|Hk]; rewrite (bool_decide_true _ Hk);
      [|destruct (bool_decide (Kind yr = "Task"))].
  - intros e. destruct (yaml_Unmarshal s) as [yr|err].
    + destruct (negb _).
      { intros [= <-]. apply Contains_prepend, at_part_located. }
      destruct (negb _).
      { intros [= <-]. unfold errKind.
        apply Contains_prepend, Contains_prepend, Contains_prepend, at_part_located. }
      destruct (bool_decide _); [|done].
      intros [= <-]. apply Contains_prepend, at_part_located.
    + intros [= <-]. apply Contains_prepend, Contains_append, at_part_located.
Qed.

(** C2 (as amended).  The uniqueness index agrees with the resource list
    and holds no key twice, at the end of every run.  When extraction
    succeeds the extracted keys are distinct.  When two parts of the input
    yield one key, extraction fails and returns no list; the error is the
    duplicate error for the key of the first part that repeats an earlier
    key, provided every file up to there was read and every part before it
    passed [parseResource]. *)
Theorem parseFiles_keys (filenames : list string) :
  index_ok (loop filenames extraction0).1 ∧
  (∀ rs, (extract filenames).2 = Ok rs -> NoDup (key <$> rs)) ∧
  (∀ i j e1 e2 r1 r2,
     i ≠ j -> all_events filenames !! i = Some e1 -> all_events filenames !! j = Some e2 ->
     passes e1 r1 -> passes e2 r2 -> key r1 = key r2 ->
     ∃ err, (extract filenames).2 = Err err) ∧
  (∀ pre f i p post rs r,
     all_events filenames = pre ++ EPart f i p :: post ->
     Forall2 passes pre rs -> NoDup (key <$> rs) ->
     parse p f i = Ok r -> key r ∈ key <$> rs ->
     (extract filenames).2 = Err (errDuplicate (key r)) ∧
     Contains (errDuplicate (key r)) (fmt_key (key r))).
Proof.
  split_and!.
  - rewrite parseFiles_loop_run. apply run_index_ok, index_ok_empty.
  - intros rs. rewrite parseFiles_result.
    pose proof (run_index_ok (all_events filenames) _ index_ok_empty) as [Hnd _].
    destruct (runs _ extraction0) as [st [err|]]; [done|]. by intros [= <-].
  - intros i j e1 e2 r1 r2 Hij Hi Hj H1 H2 Hk. rewrite parseFiles_result.
    destruct (run_repeat_fails _ extraction0 i j e1 e2 r1 r2 index_ok_empty Hij Hi Hj H1 H2 Hk)
      as [err Herr].
    destruct (runs _ extraction0) as [st [e|]]; [by eauto | done].
  - intros pre f i p post rs r Hev Hall Hnd Hp Hin. split.
    + rewrite parseFiles_result, Hev.
      pose proof (run_first_repeat pre f i p post rs r extraction0 index_ok_empty
                    Hall Hnd Hp Hin) as Hrun.
      destruct (runs _ extraction0) as [st [e|]]; simpl in Hrun; [by injection Hrun as -> | done].
    + apply Contains_prepend, Contains_refl.
Qed.

(** C10 (as amended).  Given that the decoder turns the empty text into an
    envelope with an empty API version: a file that is empty, or begins or
    ends with the separator, has an empty part; [parseResource] rejects that
    part at the API version check; and every batch that holds such a file
    fails.  The failure is that part's own when every file before it was
    read and every part before it was accepted; a file that comes first and
    begins with the separator fails at index 0. *)
Theorem empty_part_rejects_batch (yr : YamlResource) (filenames : list string)
    (f contents : string) :
  yaml_Unmarshal EmptyString = Ok yr -> ApiVersion yr = EmptyString ->
  f ∈ filenames -> os_ReadFile f = Ok contents ->
  contents = EmptyString ∨
  (∃ t, contents = separator +:+ t) ∨
  (∃ t, contents = t +:+ separator) ->
  EmptyString ∈ Split contents separator ∧
  (∀ i, parse EmptyString f i = Err (errAPIVersion f i)) ∧
  (∃ err, (extract filenames).2 = Err err) ∧
  (∀ pre i post rs,
     all_events filenames = pre ++ EPart f i EmptyString :: post ->
     Forall2 passes pre rs -> NoDup (key <$> rs) ->
     (extract filenames).2 = Err (errParsing (errAPIVersion f i))) ∧
  (∀ rest, filenames = f :: rest ->
     contents = EmptyString ∨ (∃ t, contents = separator +:+ t) ->
     (extract filenames).2 = Err (errParsing (errAPIVersion f 0))).
Proof.
  intros Hyr Hv Hf Hread Hshape.
  assert (Hparse : ∀ i, parse EmptyString f i = Err (errAPIVersion f i)).
  { intros i. unfold parseResource. rewrite Hyr, Hv. done. }
  assert (Hfirst : ∀ pre i post rs,
     all_events filenames = pre ++ EPart f i EmptyString :: post ->
     Forall2 passes pre rs -> NoDup (key <$> rs) ->
     (extract filenames).2 = Err (errParsing (errAPIVersion f i))).
  { intros pre i post rs Hev Hall Hnd. rewrite parseFiles_result, Hev.
    pose proof (run_first_failure pre f i EmptyString post rs _ extraction0
                  index_ok_empty Hall Hnd (Hparse i)) as Hrun.
    destruct (runs _ extraction0) as [st [e|]]; simpl in Hrun;
      [by injection Hrun as -> | done]. }
  pose proof (Split_has_empty_part contents Hshape) as Hempty.
  split_and!; [done | done | | done |].
  - destruct (events_elem filenames f contents EmptyString Hf Hread Hempty) as [i Hi].
    rewrite parseFiles_result.
    destruct (run_bad_part_fails _ extraction0 f i EmptyString _ index_ok_empty Hi (Hparse i))
      as [e He].
    destruct (runs _ extraction0) as [st [e'|]]; [by eauto | done].
  - intros rest -> Hlead.
    assert (∃ l, Split contents separator = EmptyString :: l) as [l Hl].
    { destruct Hlead as [->|[t ->]]; [rewrite Split_empty | rewrite Split_leading]; eauto. }
    apply (Hfirst [] 0 (parts_from f 1 l ++ all_events rest) []); [|constructor|constructor].
    change (all_events (f :: rest)) with (file_events os_ReadFile f ++ all_events rest).
    unfold file_events. rewrite Hread, Hl. done.
Qed.

End ExtractionFacts.

(** ** Building the image *)

Lemma numbered_length {A} (n : nat) (l : list A) : length (numbered n l) = length l.
Proof. revert n. induction l as [|x l IH]; intros n; simpl; [done | by rewrite IH]. Qed.

Lemma numbered_lookup {A} (n i : nat) (l : list A) :
  numbered n l !! i = (fun x => (n + i, x)) <$> l !! i.
Proof.
  revert n i. induction l as [|x l IH]; intros n i; [done|].
  destruct i as [|i]; simpl; [by rewrite Nat.add_0_r|].
  rewrite IH. by replace (S n + i) with (n + S i) by lia.
Qed.

Lemma mapM_result_cons {A B} (f : A -> result B) (x : A) (l : list A) :
  mapM f (x :: l) = y ← f x; k ← mapM f l; Ok (y :: k).
Proof. reflexivity. Qed.

Lemma annotationsOf_lookup (k : resourceKey) :
  annotationsOf k !! annotationAPIVersion = Some (apiVersion k) ∧
  annotationsOf k !! annotationKind = Some (kind k) ∧
  annotationsOf k !! annotationName = Some (name k) ∧
  ∀ s, is_Some (annotationsOf k !! s) ->
       s = annotationAPIVersion ∨ s = annotationKind ∨ s = annotationName.
Proof.
  unfold annotationsOf. split_and!.
  - by rewrite lookup_insert_eq.
  - rewrite lookup_insert_ne by done. by rewrite lookup_insert_eq.
  - rewrite !lookup_insert_ne by done. by rewrite lookup_singleton_eq.
  - intros s [v Hs].
    destruct (decide (s = annotationAPIVersion)) as [|H1]; [by left|].
    destruct (decide (s = annotationKind)) as [|H2]; [by right; left|].
    destruct (decide (s = annotationName)) as [|H3]; [by right; right|].
    rewrite !lookup_insert_ne in Hs by done.
    rewrite lookup_singleton_ne in Hs by done. done.
Qed.

(** The wrapper: its descriptor carries the annotations of the wrapper and
    the media type, size and digest of the layer inside; its other methods
    are those of the layer inside. *)
Lemma annotatedLayer_wraps (al : annotatedLayer) :
  (∀ d, annotatedLayer_Descriptor al = Ok d ->
     Annotations d = annotations al ∧
     Layer_MediaType (layer al) = Ok (MediaType d) ∧
     Layer_Size (layer al) = Ok (Size d) ∧
     Layer_Digest (layer al) = Ok (Digest d)) ∧
  annotatedLayer_Digest al = Layer_Digest (layer al) ∧
  annotatedLayer_DiffID al = Layer_DiffID (layer al) ∧
  annotatedLayer_Size al = Layer_Size (layer al) ∧
  annotatedLayer_MediaType al = Layer_MediaType (layer al).
Proof.
  split_and!; [|done..].
  intros d. unfold annotatedLayer_Descriptor.
  destruct (Layer_MediaType (layer al)) as [mt|]; [|done].
  destruct (Layer_Size (layer al)) as [sz|]; [|done].
  destruct (Layer_Digest (layer al)) as [dg|]; [|done].
  by intros [= <-].
Qed.

Section BundlerFacts.

Variable yaml_Unmarshal : string -> result YamlResource.
Variable strconv_Quote : string -> string.
Variable filepath_Join : string -> string -> string.
Variable tar_header_block : tarHeader -> string.
Variable tarball_computeDigest : string -> result (Hash * Z).
Variable tarball_computeDiffID : string -> result Hash.
Variable tarball_compressed : string -> result string.
Variable tarball_uncompressed : string -> result string.
Variable mutate_validate : Image -> annotatedLayer -> option error.
Variable manifest_digest : list Descriptor -> list Hash -> Hash.
Variable name_ParseReference : string -> result Reference.
Variable os_RemoveAll : string -> FS -> FS.

Local Abbreviation fromFile :=
  (tarball_LayerFromFile tarball_computeDigest tarball_computeDiffID
     tarball_compressed tarball_uncompressed).
Local Abbreviation bytesOf := (tarBytes tar_header_block).
Local Abbreviation build_loop :=
  (constructImage_loop filepath_Join tar_header_block tarball_computeDigest
     tarball_computeDiffID tarball_compressed tarball_uncompressed mutate_validate).
Local Abbreviation build :=
  (constructImage filepath_Join tar_header_block tarball_computeDigest
     tarball_computeDiffID tarball_compressed tarball_uncompressed mutate_validate
     os_RemoveAll).
Local Abbreviation expected :=
  (resourceLayer filepath_Join tar_header_block tarball_computeDigest
     tarball_computeDiffID tarball_compressed tarball_uncompressed).
Local Abbreviation meta :=
  (layerMeta tar_header_block tarball_computeDigest tarball_computeDiffID).
Local Abbreviation digestOf := (Image_Digest manifest_digest).
Local Abbreviation tmp := (tempDirOf filepath_Join).

(** After a successful [createTarball] the file holds the archive. *)
Lemma createTarball_written w (fs fs' : FS) path r index :
  createTarball tar_header_block w fs path r index = (fs', None) ->
  fs' !! path = Some (bytesOf r index).
Proof.
  unfold createTarball.
  destruct (os_Create w path); [done|].
  destruct (tar_WriteHeader w path); [done|].
  destruct (tar_Write w path); [done|].
  intros [= <-]. by rewrite lookup_insert_eq.
Qed.

(** The layer made from a file depends on the bytes at its path alone. *)
Lemma LayerFromFile_bytes (fs : FS) path bytes :
  fs !! path = Some bytes -> fromFile fs path = fromFile {[ path := bytes ]} path.
Proof.
  intros H. unfold tarball_LayerFromFile, os_Open. by rewrite H, lookup_singleton_eq.
Qed.

(** The loop appends, for each resource in turn, the layer expected for it
    at its position. *)
Lemma constructImage_loop_layers w tempDir (rs : list resource) :
  ∀ index (img : Image) (fs fs' : FS) (img' : Image),
    build_loop w tempDir index rs img fs = (fs', Ok img') ->
    ∃ new, img' = img ++ new ∧
           Forall2 (fun ir al => expected tempDir ir.1 ir.2 = Ok al)
                   (numbered index rs) new.
Proof.
  induction rs as [|r rs IH]; intros index img fs fs' img'; simpl.
  - intros [= _ <-]. exists []. by rewrite app_nil_r.
  - destruct (createTarball _ w fs _ r index) as [fs1 [err|]] eqn:Hc; [done|].
    destruct (fromFile fs1 _) as [l|err] eqn:Hl; [|done].
    unfold mutate_AppendLayers. destruct (mutate_validate img _) as [err|]; [done|].
    intros Hloop. apply IH in Hloop as (new & -> & Hall).
    exists ({| layer := l; annotations := annotationsOf (key r) |} :: new).
    split; [by rewrite <- app_assoc|]. constructor; [|done]. simpl.
    unfold resourceLayer.
    rewrite <- (LayerFromFile_bytes fs1 _ _ (createTarball_written _ _ _ _ _ _ Hc)).
    by rewrite Hl.
Qed.

Lemma constructImage_layers w (fs fs' : FS) rs (img : Image) :
  build w fs rs = (fs', Ok img) ->
  Forall2 (fun ir al => expected (tmp w) ir.1 ir.2 = Ok al) (numbered 0 rs) img.
Proof.
  unfold constructImage. destruct (os_MkdirAll w _); [done|].
  destruct (build_loop w _ 0 rs empty_Image fs) as [fs1 r] eqn:Hloop.
  intros [= _ ->]. by apply constructImage_loop_layers in Hloop as (new & -> & Hall).
Qed.

(** What the expected layer shows: the annotations of its resource, and the
    digest, size and diff ID computed from the archive of that resource. *)
Lemma resourceLayer_meta tempDir index r (al : annotatedLayer) :
  expected tempDir index r = Ok al ->
  annotations al = annotationsOf (key r) ∧
  fromFile {[ filepath_Join tempDir (tarFileName index) := bytesOf r index ]}
           (filepath_Join tempDir (tarFileName index)) = Ok (layer al) ∧
  ∃ d diff, meta index r = Ok (d, diff) ∧
            annotatedLayer_Descriptor al = Ok d ∧
            annotatedLayer_DiffID al = Ok diff.
Proof.
  unfold resourceLayer, layerMeta, tarball_LayerFromFile, os_Open.
  rewrite lookup_singleton_eq. simpl.
  destruct (tarball_computeDigest _) as [ds|]; [|done]. simpl.
  destruct (tarball_computeDiffID _) as [diff|]; [|done]. simpl.
  intros [= <-]. split_and!; [done | done |]. by eexists _, _.
Qed.

(** The digest of the image is the digest of the bundle, which is computed
    from the resources and their order alone. *)
Lemma Image_Digest_layers tempDir (nrs : list (nat * resource)) (img : Image) :
  Forall2 (fun ir al => expected tempDir ir.1 ir.2 = Ok al) nrs img ->
  ∃ metas, mapM (fun ir => meta ir.1 ir.2) nrs = Ok metas ∧
           mapM annotatedLayer_Descriptor img = Ok metas.*1 ∧
           mapM annotatedLayer_DiffID img = Ok metas.*2.
Proof.
  induction 1 as [|[i r] al nrs img Hal Hall (metas & Hm & Hd & Hf)].
  - by exists [].
  - apply resourceLayer_meta in Hal as (_ & _ & d & diff & Hmeta & Hdesc & Hdiff).
    exists ((d, diff) :: metas). rewrite !mapM_result_cons. simpl in *.
    rewrite Hmeta, Hm, Hdesc, Hd, Hdiff, Hf. done.
Qed.

Lemma constructImage_digest w (fs fs' : FS) rs (img : Image) :
  build w fs rs = (fs', Ok img) ->
  ∃ d, digestOf img = Ok d ∧
       bundleDigest tar_header_block tarball_computeDigest tarball_computeDiffID
         manifest_digest rs = Ok d.
Proof.
  intros Hb. apply constructImage_layers, Image_Digest_layers in Hb as (metas & Hm & Hd & Hf).
  exists (manifest_digest metas.*1 metas.*2).
  unfold Image_Digest, bundleDigest. by rewrite Hm, Hd, Hf.
Qed.

(** C3.  When extraction succeeds the resources stand in the order of the
    parts: file order, then the order inside each file.  When
    [constructImage] then succeeds, the image, begun empty, has one layer
    for each resource, and layer [i] is the layer made from resource [i]. *)
Theorem layers_follow_resources (os_ReadFile : string -> result string)
    (filenames : list string) (rs : list resource) :
  (parseFiles yaml_Unmarshal strconv_Quote os_ReadFile filenames).2 = Ok rs ->
  Forall2 (yields yaml_Unmarshal strconv_Quote) (events os_ReadFile filenames) rs ∧
  ∀ w (fs fs' : FS) (img : Image),
    build w fs rs = (fs', Ok img) ->
    length img = length rs ∧
    ∀ i r, rs !! i = Some r ->
           ∃ al, img !! i = Some al ∧ expected (tmp w) i r = Ok al.
Proof.
  intros Hparse. split; [by apply parseFiles_order|].
  intros w fs fs' img Hb. apply constructImage_layers in Hb.
  split.
  - by rewrite <- (Forall2_length _ _ _ Hb), numbered_length.
  - intros i r Hi.
    assert (Hn : numbered 0 rs !! i = Some (i, r)) by (by rewrite numbered_lookup, Hi).
    destruct (Forall2_lookup_l _ _ _ _ _ Hb Hn) as (al & Hal & Hexp). eauto.
Qed.

(** C4.  In the image built from a resource list there is one layer for
    each resource.  The descriptor of layer [i] carries exactly the three
    annotation keys, with the API version, kind and name of resource [i];
    its media type, size and digest, and the digest, diff ID, size and media
    type the wrapper reports, are those of the tarball layer inside, which
    is the layer made from the archive of resource [i]. *)
Theorem layer_descriptor_annotations w (fs fs' : FS) (rs : list resource) (img : Image) :
  build w fs rs = (fs', Ok img) ->
  length img = length rs ∧
  ∀ i r, rs !! i = Some r ->
    ∃ al d, img !! i = Some al ∧
      annotatedLayer_Descriptor al = Ok d ∧
      Annotations d !! annotationAPIVersion = Some (apiVersion (key r)) ∧
      Annotations d !! annotationKind = Some (kind (key r)) ∧
      Annotations d !! annotationName = Some (name (key r)) ∧
      (∀ s, is_Some (Annotations d !! s) ->
            s = annotationAPIVersion ∨ s = annotationKind ∨ s = annotationName) ∧
      fromFile {[ filepath_Join (tmp w) (tarFileName i) := bytesOf r i ]}
               (filepath_Join (tmp w) (tarFileName i)) = Ok (layer al) ∧
      Layer_MediaType (layer al) = Ok (MediaType d) ∧
      Layer_Size (layer al) = Ok (Size d) ∧
      Layer_Digest (layer al) = Ok (Digest d) ∧
      annotatedLayer_Digest al = Layer_Digest (layer al) ∧
      annotatedLayer_DiffID al = Layer_DiffID (layer al) ∧
      annotatedLayer_Size al = Layer_Size (layer al) ∧
      annotatedLayer_MediaType al = Layer_MediaType (layer al).
Proof.
  intros Hb. apply constructImage_layers in Hb. split.
  - by rewrite <- (Forall2_length _ _ _ Hb), numbered_length.
  - intros i r Hi.
    assert (Hn : numbered 0 rs !! i = Some (i, r)) by (by rewrite numbered_lookup, Hi).
    destruct (Forall2_lookup_l _ _ _ _ _ Hb Hn) as (al & Hal & Hexp). simpl in Hexp.
    apply resourceLayer_meta in Hexp as (Hann & Hfile & d & diff & _ & Hdesc & _).
    destruct (annotatedLayer_wraps al) as (Hw & Hdg & Hdf & Hsz & Hmt).
    destruct (Hw d Hdesc) as (Had & Hm1 & Hm2 & Hm3).
    destruct (annotationsOf_lookup (key r)) as (Ha1 & Ha2 & Ha3 & Ha4).
    exists al, d. rewrite Had, Hann. split_and!; done.
Qed.

(** C5.  Two successful runs of [constructImage] on one resource list, at
    whatever times, under whatever temporary directories and on whatever
    file systems, give images with one digest: the digest of the bundle,
    which is computed from the resources and their order alone. *)
Theorem constructImage_deterministic w1 w2 (fs1 fs1' fs2 fs2' : FS)
    (rs : list resource) (img1 img2 : Image) :
  build w1 fs1 rs = (fs1', Ok img1) ->
  build w2 fs2 rs = (fs2', Ok img2) ->
  ∃ d, digestOf img1 = Ok d ∧ digestOf img2 = Ok d ∧
       bundleDigest tar_header_block tarball_computeDigest tarball_computeDiffID
         manifest_digest rs = Ok d.
Proof.
  intros H1 H2.
  apply constructImage_digest in H1 as (d1 & Hd1 & Hb1).
  apply constructImage_digest in H2 as (d2 & Hd2 & Hb2).
  exists d1. split_and!; [done | | done]. congruence.
Qed.

(** C8.  After a successful extraction the rest of [main] is the same for
    every resource list: the image is constructed and published, and the
    exit code is 1 exactly when one of the two fails.  The resource count
    decides one thing only: above the bound of 10, the line naming the
    bound and the count is printed first. *)
Theorem main_soft_bound w (fs : FS) (flags : Flags) (ref : Reference)
    (log : list string) (rs : list resource) :
  help flags = false -> flag_Args flags ≠ [] -> image flags ≠ EmptyString ->
  name_ParseReference (image flags) = Ok ref ->
  parseFiles yaml_Unmarshal strconv_Quote (os_ReadFile w) (flag_Args flags) = (log, Ok rs) ->
  let r := main yaml_Unmarshal strconv_Quote filepath_Join tar_header_block
             tarball_computeDigest tarball_computeDiffID tarball_compressed
             tarball_uncompressed mutate_validate manifest_digest
             name_ParseReference os_RemoveAll w fs flags in
  ∃ report rest,
    stdout r = report ++ rest ∧
    (maxResources < length rs ->
       report = ["Too many resources, max 10, found " +:+ itoa (length rs) +:+ "."]) ∧
    (length rs <= maxResources -> report = []) ∧
    match (build w fs rs).2 with
    | Err err => rest = ["Error constructing image: " +:+ err] ∧ exit_code r = 1
    | Ok img =>
      match (publishImage manifest_digest w img ref).2 with
      | Err err => rest = ["Error publishing image: " +:+ err] ∧ exit_code r = 1
      | Ok digest => rest = [ref_Name ref +:+ "@" +:+ digest +:+ LF] ∧ exit_code r = 0
      end
    end.
Proof.
  intros Hh Ha Hi Href Hparse r. subst r. unfold main.
  rewrite Hh, bool_decide_false, bool_decide_false, Href, Hparse; [|done|].
  2:{ by destruct (flag_Args flags). }
  exists (if bool_decide (maxResources < length rs) then [tooMany (length rs)] else []).
  assert (Hreport : ∀ rest : list string, ∀ P : Prop, P ->
            (if bool_decide (maxResources < length rs)
             then [tooMany (length rs)] else []) ++ rest
            = (if bool_decide (maxResources < length rs)
               then [tooMany (length rs)] else []) ++ rest ∧
            (maxResources < length rs ->
               (if bool_decide (maxResources < length rs)
                then [tooMany (length rs)] else [])
               = ["Too many resources, max 10, found " +:+ itoa (length rs) +:+ "."]) ∧
            (length rs <= maxResources ->
               (if bool_decide (maxResources < length rs)
                then [tooMany (length rs)] else []) = []) ∧ P).
  { intros rest P HP. split; [done|]. split; [|split; [|done]]; intros Hlen.
    - by rewrite bool_decide_true.
    - by rewrite bool_decide_false by lia. }
  destruct (build w fs rs) as [fs' [img|err]]; simpl.
  - destruct (publishImage manifest_digest w img ref) as [log' [digest|err]]; simpl;
      eexists; by apply Hreport.
  - eexists; by apply Hreport.
Qed.

End BundlerFacts.

(** A run of C1's theorem: a registry that reports no valid signature. *)
Lemma Verify_verdict_witness :
  cosignVerifier_Verify Sample.TrimSpace Sample.PemToECDSAKey Sample.LoadECDSAVerifier
    Sample.PublicKeyFromKeyRef (Sample.backend (false, None)) tt Sample.imgRef
    EmptyString tt
  = (false, Some "signature on gcr.io/example/my-bundle:latest was not verified").
Proof.
  refine (proj1 (proj2 (proj2
    (Verify_verdict Sample.TrimSpace Sample.PemToECDSAKey Sample.LoadECDSAVerifier
       Sample.PublicKeyFromKeyRef (Sample.backend (false, None)) tt Sample.imgRef
       EmptyString tt))) (opts0 tt tt) _ _); reflexivity.
Defined.

(** C1 as first stated fails: when the registry call returns an error,
    [Verify] hands that error back and not the one naming the reference. *)
Lemma Verify_backend_error_not_renamed :
  ¬ (∀ (VerifyImageSignatures :
          unit -> Reference -> CheckOpts unit unit string -> bool * option error)
       ctx imgRef key keychain opts verified err,
       loadKey Sample.TrimSpace Sample.PemToECDSAKey Sample.LoadECDSAVerifier
         Sample.PublicKeyFromKeyRef ctx key (opts0 ctx keychain) = inr opts ->
       VerifyImageSignatures ctx imgRef opts = (verified, Some err) ->
       cosignVerifier_Verify Sample.TrimSpace Sample.PemToECDSAKey
         Sample.LoadECDSAVerifier Sample.PublicKeyFromKeyRef VerifyImageSignatures
         ctx imgRef key keychain
       = (false, Some (errNotVerified imgRef))).
Proof.
  intros H.
  specialize (H (Sample.backend (false, Some "UNAUTHORIZED: authentication required"))
                tt Sample.imgRef EmptyString tt (opts0 tt tt) false
                "UNAUTHORIZED: authentication required" eq_refl eq_refl).
  vm_compute in H. discriminate H.
Qed.

(** A run of C9's theorem: the key loader fails on a PEM key, the registry
    holds a valid signature, and [Verify] answers [(true, nil)]. *)
Lemma Verify_pem_load_error_ignored_witness :
  cosignVerifier_Verify Sample.TrimSpace Sample.PemToECDSAKey
    Sample.LoadECDSAVerifier_failing Sample.PublicKeyFromKeyRef
    (Sample.backend (true, None)) tt Sample.imgRef Sample.pemKey tt
  = (true, None).
Proof.
  refine (Verify_pem_load_error_ignored Sample.TrimSpace Sample.PemToECDSAKey
            Sample.LoadECDSAVerifier_failing Sample.PublicKeyFromKeyRef
            (Sample.backend (true, None)) tt Sample.imgRef Sample.pemKey tt
            (Sample.TrimSpace Sample.pemKey) None
            "invalid ECDSA public key specified" _ _ _ _);
    [ vm_compute; discriminate | reflexivity | reflexivity | reflexivity ].
Defined.

(** ** Runs on explicit inputs *)

(** A run of C6's theorem: the name [unknown]. *)
Lemma lookupVerifier_spec_witness :
  lookupVerifier Sample.TrimSpace Sample.Quote Sample.PemToECDSAKey
    Sample.LoadECDSAVerifier Sample.PublicKeyFromKeyRef (Sample.backend (true, None))
    "unknown"
  = Err ("unknown signer " +:+ DQ +:+ "unknown" +:+ DQ).
Proof.
  destruct (lookupVerifier_spec Sample.TrimSpace Sample.Quote Sample.PemToECDSAKey
              Sample.LoadECDSAVerifier Sample.PublicKeyFromKeyRef
              (Sample.backend (true, None)) "unknown") as [[Heq _]|(_ & Hr & _)].
  - discriminate Heq.
  - exact Hr.
Defined.

(** A run of C7's theorem: a document with an unsupported API version and
    an unsupported kind fails with the API version error. *)
Lemma parseResource_first_failure_witness :
  parseResource Sample.Unmarshal Sample.Quote Sample.oldJob "a.yaml" 3
  = Err "only tekton.dev/v1beta1 supported by this tool (filename a.yaml, index 3)".
Proof.
  refine (proj1 (proj2
    (parseResource_first_failure Sample.Unmarshal Sample.Quote Sample.oldJob "a.yaml" 3))
    {| Kind := "Job"; ApiVersion := "tekton.dev/v1alpha1"; Metadata := {| Name := "d" |} |}
    _ _); [reflexivity | discriminate].
Defined.

(** A run of C2's theorem: one file, a task, a pipeline and the task
    again; the third part ends the run with the duplicate error. *)
Lemma parseFiles_keys_witness :
  (parseFiles Sample.Unmarshal Sample.Quote
     (Sample.ReadFile
        [("a.yaml", Sample.taskA +:+ separator +:+ Sample.pipelineB +:+ separator +:+
                    Sample.taskA)])
     ["a.yaml"]).2
  = Err "duplicate entry {tekton.dev/v1beta1 Task a}".
Proof.
  refine (proj1 (proj2 (proj2 (proj2
    (parseFiles_keys Sample.Unmarshal Sample.Quote
       (Sample.ReadFile
          [("a.yaml", Sample.taskA +:+ separator +:+ Sample.pipelineB +:+ separator +:+
                      Sample.taskA)])
       ["a.yaml"])))
    [EPart "a.yaml" 0 Sample.taskA; EPart "a.yaml" 1 Sample.pipelineB]
    "a.yaml" 2 Sample.taskA [] [Sample.rA; Sample.rB] Sample.rA _ _ _ _ _)).
  - reflexivity.
  - repeat constructor.
  - apply NoDup_cons. split; [|apply NoDup_singleton].
    intros Hin%list_elem_of_singleton. discriminate Hin.
  - reflexivity.
  - apply list_elem_of_here.
Defined.

(** C2 as first stated fails: two parts with one key, and between them a
    part of an unsupported kind; the run ends with the error of that part,
    not with the duplicate error. *)
Lemma parseFiles_repeat_behind_bad_part :
  ¬ (∀ (os_ReadFile : string -> result string) filenames i j e1 e2 r1 r2,
       i ≠ j ->
       events os_ReadFile filenames !! i = Some e1 ->
       events os_ReadFile filenames !! j = Some e2 ->
       yields Sample.Unmarshal Sample.Quote e1 r1 ->
       yields Sample.Unmarshal Sample.Quote e2 r2 ->
       key r1 = key r2 ->
       (parseFiles Sample.Unmarshal Sample.Quote os_ReadFile filenames).2
       = Err (errDuplicate (key r1))).
Proof.
  intros H.
  specialize (H (Sample.ReadFile
                   [("a.yaml", Sample.taskA +:+ separator +:+ Sample.jobC +:+ separator +:+
                               Sample.taskA)])
                ["a.yaml"] 0 2
                (EPart "a.yaml" 0 Sample.taskA) (EPart "a.yaml" 2 Sample.taskA)
                Sample.rA Sample.rA).
  assert (Hout : (parseFiles Sample.Unmarshal Sample.Quote
                    (Sample.ReadFile
                       [("a.yaml", Sample.taskA +:+ separator +:+ Sample.jobC +:+
                                   separator +:+ Sample.taskA)])
                    ["a.yaml"]).2
                 = Err ("parsing resource: unsupported Kind " +:+ DQ +:+ "Job" +:+ DQ +:+
                        " (filename a.yaml, index 1)")) by reflexivity.
  rewrite Hout in H.
  specialize (H ltac:(lia) eq_refl eq_refl eq_refl eq_refl eq_refl).
  vm_compute in H. discriminate H.
Qed.

(** A run of C10's theorem: a first file that begins with the separator. *)
Lemma empty_part_rejects_batch_witness :
  (parseFiles Sample.Unmarshal Sample.Quote
     (Sample.ReadFile [("a.yaml", separator +:+ Sample.taskA)]) ["a.yaml"]).2
  = Err "parsing resource: only tekton.dev/v1beta1 supported by this tool (filename a.yaml, index 0)".
Proof.
  refine (proj2 (proj2 (proj2 (proj2
    (empty_part_rejects_batch Sample.Unmarshal Sample.Quote
       (Sample.ReadFile [("a.yaml", separator +:+ Sample.taskA)])
       zeroYamlResource ["a.yaml"] "a.yaml" (separator +:+ Sample.taskA) _ _ _ _ _))))
    [] _ _).
  - reflexivity.
  - reflexivity.
  - apply list_elem_of_here.
  - reflexivity.
  - right. left. by exists Sample.taskA.
  - reflexivity.
  - right. by exists Sample.taskA.
Defined.

(** C10 as first stated fails: a file that ends with the separator and whose
    first part is of an unsupported kind; the batch fails at that first
    part, not at the empty part's API version check. *)
Lemma empty_part_behind_bad_part :
  ¬ (∀ (os_ReadFile : string -> result string) filenames f contents i,
       f ∈ filenames -> os_ReadFile f = Ok contents ->
       contents = EmptyString ∨
       (∃ t, contents = separator +:+ t) ∨
       (∃ t, contents = t +:+ separator) ->
       EPart f i EmptyString ∈ events os_ReadFile filenames ->
       (parseFiles Sample.Unmarshal Sample.Quote os_ReadFile filenames).2
       = Err (errParsing (errAPIVersion f i))).
Proof.
  intros H.
  specialize (H (Sample.ReadFile [("a.yaml", Sample.jobC +:+ separator)])
                ["a.yaml"] "a.yaml" (Sample.jobC +:+ separator) 1).
  assert (Hout : (parseFiles Sample.Unmarshal Sample.Quote
                    (Sample.ReadFile [("a.yaml", Sample.jobC +:+ separator)])
                    ["a.yaml"]).2
                 = Err ("parsing resource: unsupported Kind " +:+ DQ +:+ "Job" +:+ DQ +:+
                        " (filename a.yaml, index 0)")) by reflexivity.
  rewrite Hout in H.
  assert (Hfalse : Err ("parsing resource: unsupported Kind " +:+ DQ +:+ "Job" +:+ DQ +:+
                        " (filename a.yaml, index 0)")
                   = Err (A := list resource) (errParsing (errAPIVersion "a.yaml" 1))).
  { apply H.
    - apply list_elem_of_here.
    - reflexivity.
    - right. right. by exists Sample.jobC.
    - apply list_elem_of_further, list_elem_of_here. }
  vm_compute in Hfalse. discriminate Hfalse.
Qed.

(** A run of C3's theorem: one file with a task and a pipeline; the image
    has two layers. *)
Lemma layers_follow_resources_witness : length (Sample.imageOf Sample.w1) = 2.
Proof.
  refine (proj1 (proj2
    (layers_follow_resources Sample.Unmarshal Sample.Quote Sample.Join Sample.header
       Sample.computeDigest Sample.computeDiffID Sample.compressed Sample.uncompressed
       Sample.validate Sample.RemoveAll (Sample.ReadFile Sample.disk2) ["a.yaml"]
       [Sample.rA; Sample.rB] _)
    Sample.w1 ∅ (Sample.built Sample.w1).1 (Sample.imageOf Sample.w1) _));
    reflexivity.
Defined.

(** A run of C4's theorem: the same image. *)
Lemma layer_descriptor_annotations_witness : length (Sample.imageOf Sample.w1) = 2.
Proof.
  refine (proj1
    (layer_descriptor_annotations Sample.Join Sample.header Sample.computeDigest
       Sample.computeDiffID Sample.compressed Sample.uncompressed Sample.validate
       Sample.RemoveAll Sample.w1 ∅ (Sample.built Sample.w1).1 [Sample.rA; Sample.rB]
       (Sample.imageOf Sample.w1) _));
    reflexivity.
Defined.

(** A run of C5's theorem: two runs at different times and under different
    temporary directories. *)
Lemma constructImage_deterministic_witness :
  ∃ d, Image_Digest Sample.manifest (Sample.imageOf Sample.w1) = Ok d ∧
       Image_Digest Sample.manifest (Sample.imageOf Sample.w2) = Ok d ∧
       bundleDigest Sample.header Sample.computeDigest Sample.computeDiffID
         Sample.manifest [Sample.rA; Sample.rB] = Ok d.
Proof.
  refine (constructImage_deterministic Sample.Join Sample.header Sample.computeDigest
            Sample.computeDiffID Sample.compressed Sample.uncompressed Sample.validate
            Sample.manifest Sample.RemoveAll Sample.w1 Sample.w2
            ∅ (Sample.built Sample.w1).1 ∅ (Sample.built Sample.w2).1
            [Sample.rA; Sample.rB] (Sample.imageOf Sample.w1) (Sample.imageOf Sample.w2)
            _ _);
    reflexivity.
Defined.

(** A run of C8's theorem: twelve resources. *)
Lemma main_soft_bound_witness :
  ∃ report rest,
    stdout (Sample.main' Sample.w12 ∅ Sample.flags12) = report ++ rest ∧
    report = ["Too many resources, max 10, found 12."] ∧
    exit_code (Sample.main' Sample.w12 ∅ Sample.flags12) = 0.
Proof.
  destruct (main_soft_bound Sample.Unmarshal Sample.Quote Sample.Join Sample.header
              Sample.computeDigest Sample.computeDiffID Sample.compressed
              Sample.uncompressed Sample.validate Sample.manifest Sample.ParseReference
              Sample.RemoveAll Sample.w12 ∅ Sample.flags12
              {| ref_Name := "gcr.io/example/my-bundle";
                 ref_String := "gcr.io/example/my-bundle" |}
              (parseFiles Sample.Unmarshal Sample.Quote (os_ReadFile Sample.w12)
                 ["twelve.yaml"]).1
              (match (parseFiles Sample.Unmarshal Sample.Quote (os_ReadFile Sample.w12)
                        ["twelve.yaml"]).2 with Ok rs => rs | Err _ => [] end)
              eq_refl ltac:(discriminate) ltac:(discriminate) eq_refl eq_refl)
    as (report & rest & Hout & Hover & _ & Hrest).
  exists report, rest. split; [exact Hout|]. split.
  - apply Hover. vm_compute. lia.
  - vm_compute in Hrest. apply Hrest.
Defined.

(** * Further properties *)

(** ** [strings.Split]: what the parts are *)

Lemma rev_app_append (a b c : string) :
  String.rev_app a b +:+ c = String.rev_app a (b +:+ c).
Proof.
  revert b. induction a as [|x a IH]; intros b; [done|].
  cbn [String.rev_app]. by rewrite IH, append_cons.
Qed.

Lemma rev_cons (x : ascii) (s : string) :
  String.rev (String x s) = String.rev s +:+ String x EmptyString.
Proof. unfold String.rev. cbn [String.rev_app]. by rewrite rev_app_append. Qed.

Lemma prefix_split (p s : string) :
  String.prefix p s = true -> ∃ t, s = p +:+ t.
Proof.
  revert s. induction p as [|a p IH]; intros s Hp.
  - by exists s.
  - destruct s as [|b s]; [done|]. simpl in Hp.
    destruct (ascii_dec a b) as [->|]; [|done].
    destruct (IH s Hp) as [t ->]. by exists t.
Qed.

Lemma Split_from_skip sep cur (u t : string) :
  Split_from sep (String.length u) cur (u +:+ t) = Split_from sep 0 cur t.
Proof.
  induction u as [|a u IH]; [by destruct t|].
  rewrite append_cons. cbn [Split_from String.length]. exact IH.
Qed.

Lemma length_append (a b : string) :
  String.length (a +:+ b) = String.length a + String.length b.
Proof.
  induction a as [|x a IH]; [done|].
  rewrite append_cons. cbn [String.length]. by rewrite IH.
Qed.

Lemma concat_cons_nonempty (sep x : string) (l : list string) :
  l ≠ [] -> String.concat sep (x :: l) = x +:+ sep +:+ String.concat sep l.
Proof. by destruct l. Qed.

Lemma Contains_tail (c : ascii) (s sub : string) :
  Contains s sub -> Contains (String c s) sub.
Proof. intros (pre & post & ->). by exists (String c pre), post. Qed.

(** Joining the parts with the separator gives the text back, whatever
    part is being collected and for every non-empty separator. *)
Lemma Split_from_join (sep : string) (n : nat) :
  sep ≠ EmptyString ->
  ∀ s cur, String.length s <= n ->
    String.concat sep (Split_from sep 0 cur s) = String.rev cur +:+ s.
Proof.
  intros Hsep. induction n as [|n IH]; intros s cur Hlen.
  - destruct s; [|simpl in Hlen; lia]. cbn [Split_from String.concat].
    by rewrite append_nil_r.
  - destruct s as [|c s]; [cbn [Split_from String.concat]; by rewrite append_nil_r|].
    cbn [Split_from]. destruct (String.prefix sep (String c s)) eqn:Hp.
    + destruct (prefix_split _ _ Hp) as [t Ht].
      destruct sep as [|a sep']; [done|].
      rewrite append_cons in Ht. injection Ht as -> ->.
      replace (String.length (String a sep') - 1) with (String.length sep')
        by (simpl; lia).
      rewrite Split_from_skip, concat_cons_nonempty by apply Split_from_nonempty.
      rewrite IH.
      * by rewrite append_nil_l, append_cons.
      * cbn [String.length] in Hlen. rewrite length_append in Hlen. lia.
    + rewrite IH by (simpl in Hlen; lia).
      by rewrite rev_cons, append_assoc, append_cons, append_nil_l.
Qed.

(** Round trip: the parts of a text, joined again with the separator, are
    the text. *)
Lemma Split_join (s : string) : String.concat separator (Split s separator) = s.
Proof.
  unfold Split. rewrite (Split_from_join separator (String.length s)); [done | done | lia].
Qed.

Lemma Split_from_whole (sep s : string) :
  ∀ cur, ¬ Contains s sep -> Split_from sep 0 cur s = [String.rev cur +:+ s].
Proof.
  induction s as [|c s IH]; intros cur Hno.
  - cbn [Split_from]. by rewrite append_nil_r.
  - cbn [Split_from]. destruct (String.prefix sep (String c s)) eqn:Hp.
    + exfalso. apply Hno. destruct (prefix_split _ _ Hp) as [t Ht].
      exists EmptyString, t. by rewrite append_nil_l.
    + rewrite IH by (intros H; by apply Hno, Contains_tail).
      by rewrite rev_cons, append_assoc, append_cons, append_nil_l.
Qed.

(** A text in which the separator does not occur has one part, the text
    itself; and a text with only one part is that part. *)
Lemma Split_whole (s : string) :
  (¬ Contains s separator -> Split s separator = [s]) ∧
  (∀ p, Split s separator = [p] -> p = s).
Proof.
  split.
  - intros Hno. unfold Split. by rewrite Split_from_whole.
  - intros p Hp. by rewrite <- (Split_join s), Hp.
Qed.

(** ** Resource extraction: what comes out, what is logged, what fails *)

Section ExtractionMore.

Variable yaml_Unmarshal : string -> result YamlResource.
Variable strconv_Quote : string -> string.
Variable os_ReadFile : string -> result string.

Local Abbreviation parse := (parseResource yaml_Unmarshal strconv_Quote).
Local Abbreviation process := (process_part yaml_Unmarshal strconv_Quote).
Local Abbreviation runs := (run yaml_Unmarshal strconv_Quote).
Local Abbreviation passes := (yields yaml_Unmarshal strconv_Quote).
Local Abbreviation all_events := (events os_ReadFile).
Local Abbreviation extract := (parseFiles yaml_Unmarshal strconv_Quote os_ReadFile).

Lemma parseResource_ok_inv s filename index r :
  parse s filename index = Ok r ->
  ∃ yr, yaml_Unmarshal s = Ok yr ∧ ApiVersion yr = "tekton.dev/v1beta1" ∧
        (Kind yr = "Task" ∨ Kind yr = "Pipeline") ∧ Name (Metadata yr) ≠ EmptyString ∧
        r = {| key := {| apiVersion := ApiVersion yr; kind := Kind yr;
                         name := Name (Metadata yr) |};
               content := s |}.
Proof.
  unfold parseResource. destruct (yaml_Unmarshal s) as [yr|]; [|done].
  destruct (bool_decide (ApiVersion yr = "tekton.dev/v1beta1")) eqn:Hv; simpl; [|done].
  apply bool_decide_eq_true in Hv.
  destruct (bool_decide (Name (Metadata yr) = EmptyString)) eqn:Hn.
  { by destruct (negb _). }
  apply bool_decide_eq_false in Hn.
  destruct (bool_decide (Kind yr = "Task")) eqn:Ht; simpl.
  { apply bool_decide_eq_true in Ht. intros [= <-]. exists yr. split_and!; auto. }
  destruct (bool_decide (Kind yr = "Pipeline")) eqn:Hp; simpl; [|done].
  apply bool_decide_eq_true in Hp. intros [= <-]. exists yr. split_and!; auto.
Qed.

(** X1.  A resource that [parseResource] returns has the supported API
    version, one of the two supported kinds and a non-empty name, and its
    content is the text it was parsed from, unchanged.  The file name and
    the index serve for error messages only: they do not change the
    resource. *)
Theorem parseResource_resource s filename index r :
  parse s filename index = Ok r ->
  apiVersion (key r) = "tekton.dev/v1beta1" ∧
  (kind (key r) = "Task" ∨ kind (key r) = "Pipeline") ∧
  name (key r) ≠ EmptyString ∧
  content r = s ∧
  ∀ filename' index', parse s filename' index' = Ok r.
Proof.
  intros Hp. destruct (parseResource_ok_inv _ _ _ _ Hp) as (yr & Hy & Hv & Hk & Hn & ->).
  split_and!; try done.
  intros f' i'. unfold parseResource.
  rewrite Hy, (bool_decide_true _ Hv), (bool_decide_false _ Hn). simpl.
  by destruct Hk as [Hk|Hk]; rewrite (bool_decide_true _ Hk);
    [|destruct (bool_decide (Kind yr = "Task"))].
Qed.

Lemma parts_from_contents filename index parts rs :
  Forall2 passes (parts_from filename index parts) rs -> content <$> rs = parts.
Proof.
  revert index rs. induction parts as [|p parts IH]; intros index rs Hall.
  - by apply Forall2_nil_inv_l in Hall as ->.
  - apply Forall2_cons_inv_l in Hall as (r & rs' & Hp & Hall & ->). simpl in Hp.
    destruct (parseResource_ok_inv _ _ _ _ Hp) as (yr & _ & _ & _ & _ & ->).
    rewrite fmap_cons. simpl. f_equal. by eapply IH.
Qed.

(** The resources fall into one group for each file, in file order; the
    contents of a group are the parts of its file. *)
Lemma events_groups filenames :
  ∀ rs, Forall2 passes (all_events filenames) rs ->
    ∃ cs groups,
      Forall2 (fun f c => os_ReadFile f = Ok c) filenames cs ∧
      rs = concat groups ∧
      Forall2 (fun c (g : list resource) => content <$> g = Split c separator) cs groups.
Proof.
  induction filenames as [|f rest IH]; intros rs Hall.
  - apply Forall2_nil_inv_l in Hall as ->. by exists [], [].
  - change (all_events (f :: rest)) with (file_events os_ReadFile f ++ all_events rest) in Hall.
    apply Forall2_app_inv_l in Hall as (g & rs' & Hg & Hrest & ->).
    unfold file_events in Hg. destruct (os_ReadFile f) as [c|err] eqn:Hread.
    + destruct (IH rs' Hrest) as (cs & groups & Hcs & -> & Hgroups).
      exists (c :: cs), (g :: groups). split_and!; [by constructor | done |].
      constructor; [|done]. by eapply parts_from_contents.
    + apply Forall2_cons_inv_l in Hg as (r & ? & [] & _).
Qed.

(** X2.  When extraction succeeds every file was read, and the resources
    fall into one group for each file, in file order.  The contents of a
    group are the parts of its file in order, unchanged: joined again with
    the separator they give the file back. *)
Theorem parseFiles_contents (filenames : list string) (rs : list resource) :
  (extract filenames).2 = Ok rs ->
  ∃ cs groups,
    Forall2 (fun f c => os_ReadFile f = Ok c) filenames cs ∧
    rs = concat groups ∧
    Forall2 (fun c (g : list resource) =>
               content <$> g = Split c separator ∧
               String.concat separator (content <$> g) = c) cs groups.
Proof.
  intros Hok. apply parseFiles_order, events_groups in Hok as (cs & groups & ? & ? & Hg).
  exists cs, groups. split_and!; [done..|].
  eapply Forall2_impl; [exact Hg|]. intros c g Hc. split; [done|].
  rewrite Hc. apply Split_join.
Qed.

(** X3.  Every resource of a successful extraction has the supported API
    version, a supported kind and a non-empty name. *)
Theorem parseFiles_supported (filenames : list string) (rs : list resource) :
  (extract filenames).2 = Ok rs ->
  Forall (fun r => apiVersion (key r) = "tekton.dev/v1beta1" ∧
                   (kind (key r) = "Task" ∨ kind (key r) = "Pipeline") ∧
                   name (key r) ≠ EmptyString) rs.
Proof.
  intros Hok. apply parseFiles_order in Hok.
  induction Hok as [|ev r evs rs Hp _ IH]; constructor; [|done].
  destruct ev as [|f i p]; [done|]. simpl in Hp.
  by destruct (parseResource_ok_inv _ _ _ _ Hp) as (yr & _ & ? & ? & ? & ->).
Qed.

(** X4.  A file in which the separator does not occur is one document:
    extraction of that file alone succeeds exactly when [parseResource]
    accepts the whole contents as part 0, and then gives that one
    resource. *)
Theorem parseFiles_single_document (f contents : string) :
  os_ReadFile f = Ok contents -> ¬ Contains contents separator ->
  (extract [f]).2 =
    match parse contents f 0 with
    | Ok r => Ok [r]
    | Err err => Err ("parsing resource: " +:+ err)
    end.
Proof.
  intros Hread Hno. rewrite parseFiles_result.
  change (all_events [f]) with (file_events os_ReadFile f ++ []).
  unfold file_events. rewrite Hread, (proj1 (Split_whole contents) Hno). simpl.
  unfold process_part. destruct (parse contents f 0) as [r|err]; [|done].
  change (keys extraction0) with (∅ : gmap resourceKey bool).
  by rewrite lookup_empty.
Qed.

(** *** The log and the errors *)

Lemma process_part_cases filename index part st :
  match parse part filename index with
  | Err err => process filename index part st = (st, Some (errParsing err))
  | Ok r =>
    let line := logFound (key r) filename index in
    match keys st !! key r with
    | Some _ =>
      ∃ st', process filename index part st = (st', Some (errDuplicate (key r))) ∧
             stderr st' = stderr st ++ [line]
    | None =>
      ∃ st', process filename index part st = (st', None) ∧
             stderr st' = stderr st ++ [line] ∧
             resources st' = resources st ++ [r]
    end
  end.
Proof.
  unfold process_part. destruct (parse part filename index) as [r|err]; [|done].
  simpl. destruct (keys st !! key r); by eexists.
Qed.

(** The line written for the part at [ev]. *)
Lemma run_log evs st st' :
  runs evs st = (st', None) ->
  ∃ lines, stderr st' = stderr st ++ lines ∧
           Forall2 (fun ev line => ∃ f i p r, ev = EPart f i p ∧ parse p f i = Ok r ∧
                                              line = logFound (key r) f i) evs lines.
Proof.
  revert st. induction evs as [|[f e|f i p] evs IH]; intros st; simpl.
  - intros [= <-]. exists []. by rewrite app_nil_r.
  - done.
  - pose proof (process_part_cases f i p st) as Hc.
    destruct (parse p f i) as [r|err] eqn:Hp; [|by rewrite Hc].
    simpl in Hc. destruct (keys st !! key r).
    + destruct Hc as (st1 & -> & _). done.
    + destruct Hc as (st1 & -> & Hlog & _). intros Hrun.
      destruct (IH _ Hrun) as (lines & Hl & Hall).
      exists (logFound (key r) f i :: lines). split.
      * by rewrite Hl, Hlog, <- app_assoc.
      * constructor; [by exists f, i, p, r | done].
Qed.

(** A run that fails has accepted everything before one event and failed
    on that event. *)
Lemma run_fail_split evs st st' err :
  runs evs st = (st', Some err) ->
  ∃ pre ev post st1,
    evs = pre ++ ev :: post ∧ runs pre st = (st1, None) ∧ runs [ev] st1 = (st', Some err).
Proof.
  revert st. induction evs as [|ev evs IH]; intros st; [done|].
  destruct ev as [f e|f i p].
  - intros Hrun. exists [], (EReadErr f e), evs, st. by split_and!.
  - simpl. destruct (process f i p st) as [st1 [e|]] eqn:Hproc.
    + intros [= <- <-]. exists [], (EPart f i p), evs, st. split_and!; [done..|].
      simpl. by rewrite Hproc.
    + intros Hrun. destruct (IH _ Hrun) as (pre & ev & post & st2 & -> & Hpre & Hev).
      exists (EPart f i p :: pre), ev, post, st2. split_and!; [done | | done].
      simpl. by rewrite Hproc.
Qed.

Lemma parts_from_no_read_error filename index parts f e :
  EReadErr f e ∉ parts_from filename index parts.
Proof.
  revert index. induction parts as [|p parts IH]; intros index; simpl.
  - apply not_elem_of_nil.
  - apply not_elem_of_cons. split; [done | apply IH].
Qed.

Lemma events_read_error filenames f e :
  EReadErr f e ∈ all_events filenames ↔ f ∈ filenames ∧ os_ReadFile f = Err e.
Proof.
  unfold events. rewrite list_elem_of_bind. split.
  - intros (g & Hin & Hg). unfold file_events in Hin.
    destruct (os_ReadFile g) as [c|err] eqn:Hread.
    + by apply parts_from_no_read_error in Hin.
    + apply list_elem_of_singleton in Hin. injection Hin as -> ->. done.
  - intros [Hf Hread]. exists f. split; [|done].
    unfold file_events. rewrite Hread. apply list_elem_of_here.
Qed.

Lemma parseFiles_log filenames :
  (extract filenames).1 = stderr (runs (all_events filenames) extraction0).1.
Proof.
  unfold parseFiles. rewrite parseFiles_loop_run.
  by destruct (runs _ extraction0) as [st [err|]].
Qed.

(** X5.  On success, standard error holds one [Found] line for each
    resource, in order, naming its key, its file and its index.  A part
    that repeats a key is logged as found before it is rejected: its
    [Found] line is the last of the lines written, one for each part up to
    and including it. *)
Theorem parseFiles_found_lines (filenames : list string) :
  (∀ rs, (extract filenames).2 = Ok rs ->
     length (extract filenames).1 = length rs ∧
     Forall2 (fun ev line => ∃ f i p r, ev = EPart f i p ∧ parse p f i = Ok r ∧
                                        line = logFound (key r) f i)
             (all_events filenames) (extract filenames).1) ∧
  (∀ pre f i p post rs r,
     all_events filenames = pre ++ EPart f i p :: post ->
     Forall2 passes pre rs -> NoDup (key <$> rs) ->
     parse p f i = Ok r -> key r ∈ key <$> rs ->
     last (extract filenames).1 = Some (logFound (key r) f i) ∧
     length (extract filenames).1 = S (length pre)).
Proof.
  split.
  - intros rs Hok. pose proof (parseFiles_order _ _ _ _ _ Hok) as Hall.
    rewrite parseFiles_result in Hok. rewrite parseFiles_log.
    destruct (runs _ extraction0) as [st [err|]] eqn:Hrun; [done|].
    destruct (run_log _ _ _ Hrun) as (lines & Hl & Hlines). simpl in *.
    rewrite Hl. split; [|done].
    by rewrite <- (Forall2_length _ _ _ Hlines), (Forall2_length _ _ _ Hall).
  - intros pre f i p post rs r Hev Hall Hnd Hp Hin.
    rewrite parseFiles_log, Hev, run_app.
    destruct (run_accepts _ _ pre rs extraction0 index_ok_empty Hall Hnd)
      as (st1 & Hrun & Hr & Hok).
    rewrite Hrun. destruct (run_log _ _ _ Hrun) as (lines & Hl & Hlines). simpl in Hl.
    pose proof (process_part_cases f i p st1) as Hc. rewrite Hp in Hc. simpl in Hc.
    simpl in Hr. rewrite <- Hr in Hin. apply Hok in Hin as [b Hb]. rewrite Hb in Hc.
    destruct Hc as (st2 & Hproc & Hlog). simpl. rewrite Hproc. simpl.
    rewrite Hlog, Hl, last_snoc, length_app. simpl.
    split; [done|]. rewrite <- (Forall2_length _ _ _ Hlines). lia.
Qed.

(** X6.  A file that cannot be read makes the batch fail.  The error is
    the reading error, with the quoted file name and the cause, when every
    file before it was read and every part of those files was accepted. *)
Theorem parseFiles_unreadable (filenames : list string) (f : string) (e : error) :
  f ∈ filenames -> os_ReadFile f = Err e ->
  (∃ err, (extract filenames).2 = Err err) ∧
  (∀ pre post rs,
     all_events filenames = pre ++ EReadErr f e :: post ->
     Forall2 passes pre rs -> NoDup (key <$> rs) ->
     (extract filenames).2 = Err ("reading " +:+ strconv_Quote f +:+ ": " +:+ e)).
Proof.
  intros Hf Hread. split.
  - rewrite parseFiles_result.
    destruct (runs _ extraction0) as [st [err|]] eqn:Hrun; [by eauto|]. exfalso.
    destruct (run_ok _ _ _ _ _ index_ok_empty Hrun) as (rs & _ & Hall).
    assert (Hin : EReadErr f e ∈ all_events filenames) by (by apply events_read_error).
    apply list_elem_of_lookup in Hin as [n Hn].
    by destruct (Forall2_lookup_l _ _ _ _ _ Hall Hn) as (r & _ & []).
  - intros pre post rs Hev Hall Hnd. rewrite parseFiles_result, Hev, run_app.
    destruct (run_accepts _ _ pre rs extraction0 index_ok_empty Hall Hnd)
      as (st1 & Hrun & _ & _).
    by rewrite Hrun.
Qed.

(** X7.  Every error of [parseFiles] has a cause in the input: a file that
    could not be read, a part that [parseResource] rejected, or a part
    whose key is the key of an earlier part.  In particular the duplicate
    error is never given for keys that are all distinct. *)
Theorem parseFiles_error_cause (filenames : list string) (err : error) :
  (extract filenames).2 = Err err ->
  (∃ f e, f ∈ filenames ∧ os_ReadFile f = Err e ∧ err = errReading strconv_Quote f e) ∨
  (∃ f i p e, EPart f i p ∈ all_events filenames ∧ parse p f i = Err e ∧
              err = errParsing e) ∨
  (∃ m n f1 i1 p1 f2 i2 p2 r1 r2,
     m < n ∧
     all_events filenames !! m = Some (EPart f1 i1 p1) ∧
     all_events filenames !! n = Some (EPart f2 i2 p2) ∧
     parse p1 f1 i1 = Ok r1 ∧ parse p2 f2 i2 = Ok r2 ∧
     key r1 = key r2 ∧ err = errDuplicate (key r2)).
Proof.
  rewrite parseFiles_result.
  destruct (runs _ extraction0) as [st [e0|]] eqn:Hrun; [|done]. intros [= ->].
  apply run_fail_split in Hrun as (pre & ev & post & st1 & Hev & Hpre & Hfail).
  destruct (run_ok _ _ _ _ _ index_ok_empty Hpre) as (rs & Hrs & Hall).
  pose proof (run_index_ok yaml_Unmarshal strconv_Quote pre _ index_ok_empty) as Hok. rewrite Hpre in Hok.
  simpl in Hrs, Hok.
  destruct ev as [f e|f i p]; simpl in Hfail.
  - left. injection Hfail as _ <-. exists f, e.
    assert (Hin : EReadErr f e ∈ all_events filenames).
    { rewrite Hev. apply elem_of_app. right. apply list_elem_of_here. }
    apply events_read_error in Hin as [? ?]. done.
  - right. pose proof (process_part_cases f i p st1) as Hc.
    destruct (parse p f i) as [r|e] eqn:Hp.
    + simpl in Hc. destruct (keys st1 !! key r) eqn:Hk.
      * right. destruct Hc as (st2 & Hproc & _). rewrite Hproc in Hfail.
        injection Hfail as _ <-.
        assert (Hin : key r ∈ key <$> rs) by (rewrite <- Hrs; apply Hok; eauto).
        apply list_elem_of_fmap in Hin as (r1 & Hkey & Hin).
        apply list_elem_of_lookup in Hin as [m Hm].
        destruct (Forall2_lookup_r _ _ _ _ _ Hall Hm) as (ev1 & Hev1 & Hp1).
        destruct ev1 as [|f1 i1 p1]; [done|]. simpl in Hp1.
        exists m, (length pre), f1, i1, p1, f, i, p, r1, r.
        split_and!; try done.
        -- by eapply lookup_lt_Some.
        -- rewrite Hev. by apply lookup_app_l_Some.
        -- rewrite Hev. by rewrite list_lookup_middle.
      * destruct Hc as (st2 & Hproc & _). by rewrite Hproc in Hfail.
    + left. rewrite Hc in Hfail. injection Hfail as _ <-.
      exists f, i, p, e. split_and!; [|done..].
      rewrite Hev. apply elem_of_app. right. apply list_elem_of_here.
Qed.

End ExtractionMore.

(** ** Staging, cleanup and publishing *)

Lemma append_inj_len (a b c d : string) :
  String.length a = String.length b -> a +:+ c = b +:+ d -> a = b.
Proof.
  revert b. induction a as [|x a IH]; intros [|y b] Hlen Heq; try done.
  rewrite !append_cons in Heq. injection Heq as -> Heq.
  f_equal. apply IH; [simpl in Hlen; lia | done].
Qed.

Lemma append_inj_r (a b c : string) : a +:+ c = b +:+ c -> a = b.
Proof.
  intros Heq. apply (append_inj_len a b c c); [|done].
  apply (f_equal String.length) in Heq. rewrite !length_append in Heq. lia.
Qed.

Lemma itoa_inj (n m : nat) : itoa n = itoa m -> n = m.
Proof.
  unfold itoa. intros Heq. apply Unsigned.to_uint_inj.
  apply (f_equal NilEmpty.uint_of_string) in Heq. rewrite !NilEmpty.usu in Heq.
  by injection Heq.
Qed.

Section BundlerMore.

Variable yaml_Unmarshal : string -> result YamlResource.
Variable strconv_Quote : string -> string.
Variable filepath_Join : string -> string -> string.
Variable tar_header_block : tarHeader -> string.
Variable tarball_computeDigest : string -> result (Hash * Z).
Variable tarball_computeDiffID : string -> result Hash.
Variable tarball_compressed : string -> result string.
Variable tarball_uncompressed : string -> result string.
Variable mutate_validate : Image -> annotatedLayer -> option error.
Variable manifest_digest : list Descriptor -> list Hash -> Hash.
Variable name_ParseReference : string -> result Reference.
Variable os_RemoveAll : string -> FS -> FS.

Local Abbreviation fromFile :=
  (tarball_LayerFromFile tarball_computeDigest tarball_computeDiffID
     tarball_compressed tarball_uncompressed).
Local Abbreviation bytesOf := (tarBytes tar_header_block).
Local Abbreviation build_loop :=
  (constructImage_loop filepath_Join tar_header_block tarball_computeDigest
     tarball_computeDiffID tarball_compressed tarball_uncompressed mutate_validate).
Local Abbreviation build :=
  (constructImage filepath_Join tar_header_block tarball_computeDigest
     tarball_computeDiffID tarball_compressed tarball_uncompressed mutate_validate
     os_RemoveAll).
Local Abbreviation expected :=
  (resourceLayer filepath_Join tar_header_block tarball_computeDigest
     tarball_computeDiffID tarball_compressed tarball_uncompressed).
Local Abbreviation tmp := (tempDirOf filepath_Join).
Local Abbreviation program :=
  (main yaml_Unmarshal strconv_Quote filepath_Join tar_header_block
     tarball_computeDigest tarball_computeDiffID tarball_compressed
     tarball_uncompressed mutate_validate manifest_digest name_ParseReference
     os_RemoveAll).

Lemma tarFileName_inj (i j : nat) : tarFileName i = tarFileName j -> i = j.
Proof.
  unfold tarFileName. intros Heq. apply (inj (String.append _)) in Heq.
  by apply itoa_inj, (append_inj_r _ _ ".tar").
Qed.

(** [createTarball] changes the file at its path and no other. *)
Lemma createTarball_frame w (fs fs' : FS) path r index o :
  createTarball tar_header_block w fs path r index = (fs', o) ->
  ∀ p, p ≠ path -> fs' !! p = fs !! p.
Proof.
  unfold createTarball.
  destruct (os_Create w path); [by intros [= <- _]|].
  destruct (tar_WriteHeader w path);
    [intros [= <- _] p Hp; by rewrite !lookup_insert_ne by congruence|].
  destruct (tar_Write w path); intros [= <- _] p Hp;
    by rewrite !lookup_insert_ne by congruence.
Qed.

(** The loop changes the staging files of its resources and no other. *)
Lemma constructImage_loop_frame w tempDir (rs : list resource) :
  ∀ index (img : Image) (fs fs' : FS) res,
    build_loop w tempDir index rs img fs = (fs', res) ->
    ∀ p, (∀ j, j < length rs -> p ≠ filepath_Join tempDir (tarFileName (index + j))) ->
         fs' !! p = fs !! p.
Proof.
  induction rs as [|r rs IH]; intros index img fs fs' res; simpl.
  - by intros [= <- _].
  - intros Hloop p Hp.
    assert (Hp0 : p ≠ filepath_Join tempDir (tarFileName index)).
    { specialize (Hp 0 ltac:(lia)). by rewrite Nat.add_0_r in Hp. }
    destruct (createTarball _ w fs _ r index) as [fs1 [err|]] eqn:Hc.
    { injection Hloop as <- _. by eapply createTarball_frame. }
    destruct (fromFile fs1 _) as [l|err].
    2:{ injection Hloop as <- _. by eapply createTarball_frame. }
    destruct (mutate_AppendLayers _ _ _) as [img1|err].
    2:{ injection Hloop as <- _. by eapply createTarball_frame. }
    rewrite (IH _ _ _ _ _ Hloop).
    + by eapply createTarball_frame.
    + intros j Hj. specialize (Hp (S j) ltac:(lia)).
      by replace (index + S j) with (S index + j) in Hp by lia.
Qed.

(** X8.  If the staging directory cannot be made, [constructImage] fails
    with an error naming it and leaves the file system as it was.
    Otherwise the file system it leaves is what [os.RemoveAll] makes of one
    that differs from the initial one at most at the staging files
    [resource-<i>.tar] of the resources: no other file is written. *)
Theorem constructImage_confined w (fs : FS) (rs : list resource) :
  match os_MkdirAll w (tmp w) with
  | Some err =>
    build w fs rs = (fs, Err ("making temp dir " +:+ tmp w +:+ ": " +:+ err))
  | None =>
    ∃ fs1, (build w fs rs).1 = os_RemoveAll (tmp w) fs1 ∧
           ∀ p, (∀ j, j < length rs -> p ≠ filepath_Join (tmp w) (tarFileName j)) ->
                fs1 !! p = fs !! p
  end.
Proof.
  unfold constructImage. destruct (os_MkdirAll w (tmp w)) as [err|]; [done|].
  destruct (build_loop w (tmp w) 0 rs empty_Image fs) as [fs1 res] eqn:Hloop.
  exists fs1. split; [done|]. intros p Hp.
  by eapply constructImage_loop_frame.
Qed.

(** What the readers of an expected layer do: open the staging file of the
    layer in the file system they are given. *)
Lemma resourceLayer_readers tempDir index r (al : annotatedLayer) :
  expected tempDir index r = Ok al ->
  ∀ fs : FS,
    annotatedLayer_Compressed al fs =
      (b ← os_Open fs (filepath_Join tempDir (tarFileName index)); tarball_compressed b) ∧
    annotatedLayer_Uncompressed al fs =
      (b ← os_Open fs (filepath_Join tempDir (tarFileName index)); tarball_uncompressed b).
Proof.
  unfold resourceLayer, tarball_LayerFromFile, os_Open.
  rewrite lookup_singleton_eq. simpl.
  destruct (tarball_computeDigest _) as [ds|]; [|done]. simpl.
  destruct (tarball_computeDiffID _) as [diff|]; [|done]. simpl.
  by intros [= <-].
Qed.

(** X9.  While the loop of [constructImage] runs, nothing is lost: when it
    has succeeded, the staging file of every resource holds the archive of
    that resource (the header block for its entry, then its content), and
    the layer appended for it reads that archive back.  This needs staging
    paths of different names to differ. *)
Theorem constructImage_loop_staged w tempDir (rs : list resource) :
  (∀ a b, filepath_Join tempDir a = filepath_Join tempDir b -> a = b) ->
  ∀ index (img : Image) (fs fs1 : FS) (img' : Image),
    build_loop w tempDir index rs img fs = (fs1, Ok img') ->
    ∀ j r, rs !! j = Some r ->
      fs1 !! filepath_Join tempDir (tarFileName (index + j)) = Some (bytesOf r (index + j)) ∧
      ∃ al, img' !! (length img + j) = Some al ∧
            annotatedLayer_Uncompressed al fs1 = tarball_uncompressed (bytesOf r (index + j)).
Proof.
  intros Hinj. induction rs as [|r0 rs IH]; intros index img fs fs1 img' Hloop j r Hj;
    [done|].
  pose proof (constructImage_loop_layers _ _ _ _ _ _ _ _ _ _ _ _ _ _ _ Hloop)
    as (new & -> & Hnew).
  assert (Hstaged : fs1 !! filepath_Join tempDir (tarFileName (index + j))
                    = Some (bytesOf r (index + j))).
  { simpl in Hloop.
    destruct (createTarball _ w fs _ r0 index) as [fs2 [err|]] eqn:Hc; [done|].
    destruct (fromFile fs2 _) as [l|err]; [|done].
    destruct (mutate_AppendLayers _ _ _) as [img1|err]; [|done].
    destruct j as [|j].
    - injection Hj as ->. rewrite Nat.add_0_r.
      rewrite (constructImage_loop_frame _ _ _ _ _ _ _ _ Hloop).
      + by eapply createTarball_written.
      + intros k _ Heq. apply Hinj, tarFileName_inj in Heq. lia.
    - replace (index + S j) with (S index + j) by lia.
      by apply (IH _ _ _ _ _ Hloop j r). }
  split; [done|].
  assert (Hn : numbered index (r0 :: rs) !! j = Some (index + j, r))
    by (by rewrite numbered_lookup, Hj).
  destruct (Forall2_lookup_l _ _ _ _ _ Hnew Hn) as (al & Hal & Hexp). simpl in Hexp.
  exists al. split.
  - by rewrite lookup_app_r, Nat.add_comm, Nat.add_sub by lia.
  - rewrite (proj2 (resourceLayer_readers _ _ _ _ Hexp fs1)).
    unfold os_Open. by rewrite Hstaged.
Qed.

(** X10.  [constructImage] removes the staging directory before it returns
    (the deferred [os.RemoveAll]), and the layers of the image it returns
    open their staging files only when they are read.  So, when the removal
    leaves no file under the staging directory, neither reader of any layer
    of the returned image can be served from the file system that
    [constructImage] leaves: each fails to open its file. *)
Theorem constructImage_layers_after_cleanup w (fs fs' : FS) (rs : list resource)
    (img : Image) :
  (∀ (fs1 : FS) name, os_RemoveAll (tmp w) fs1 !! filepath_Join (tmp w) name = None) ->
  build w fs rs = (fs', Ok img) ->
  ∀ i al, img !! i = Some al ->
    annotatedLayer_Compressed al fs' =
      Err ("open " +:+ filepath_Join (tmp w) (tarFileName i) +:+ ": no such file or directory") ∧
    annotatedLayer_Uncompressed al fs' =
      Err ("open " +:+ filepath_Join (tmp w) (tarFileName i) +:+ ": no such file or directory").
Proof.
  intros Hrm Hb i al Hi.
  pose proof (constructImage_layers _ _ _ _ _ _ _ _ _ _ _ _ _ Hb) as Hall.
  destruct (Forall2_lookup_r _ _ _ _ _ Hall Hi) as ([i' r] & Hn & Hexp).
  rewrite numbered_lookup in Hn. destruct (rs !! i) as [r'|]; [|done].
  injection Hn as <- <-. simpl in Hexp.
  assert (Hfs : fs' !! filepath_Join (tmp w) (tarFileName i) = None).
  { revert Hb. unfold constructImage. destruct (os_MkdirAll w (tmp w)); [done|].
    destruct (build_loop _ _ _ _ _ _) as [fs1 res]. intros [= <- _]. apply Hrm. }
  destruct (resourceLayer_readers _ _ _ _ Hexp fs') as [-> ->].
  unfold os_Open. by rewrite Hfs.
Qed.

Lemma publishImage_parts w (img : Image) (ref : Reference) :
  match (publishImage manifest_digest w img ref).2 with
  | Ok d => crane_Push w img (ref_String ref) = None ∧
            Image_Digest manifest_digest img = Ok d
  | Err _ => True
  end.
Proof.
  unfold publishImage. destruct (crane_Push w img (ref_String ref)); [done|].
  by destruct (Image_Digest manifest_digest img).
Qed.

(** X12.  The exit code of [main] is 0 or 1, and something is always
    printed.  It is 0 only when help was asked for, or when every stage
    succeeded: the flags were valid, extraction, construction and the push
    succeeded, and the last line printed names the reference and the
    digest of the image that was pushed.  Nothing is written to standard
    error unless the flags were valid. *)
Theorem main_outcomes w (fs : FS) (flags : Flags) :
  let r := program w fs flags in
  (exit_code r = 0 ∨ exit_code r = 1) ∧
  stdout r ≠ [] ∧
  (exit_code r = 0 ->
     help flags = true ∨
     ∃ ref log rs fs' img d,
       flag_Args flags ≠ [] ∧ image flags ≠ EmptyString ∧
       name_ParseReference (image flags) = Ok ref ∧
       parseFiles yaml_Unmarshal strconv_Quote (os_ReadFile w) (flag_Args flags)
         = (log, Ok rs) ∧
       build w fs rs = (fs', Ok img) ∧
       crane_Push w img (ref_String ref) = None ∧
       Image_Digest manifest_digest img = Ok d ∧
       last (stdout r) = Some (ref_Name ref +:+ "@" +:+ d +:+ LF)) ∧
  (errout r ≠ [] ->
     help flags = false ∧ flag_Args flags ≠ [] ∧ image flags ≠ EmptyString ∧
     ∃ ref, name_ParseReference (image flags) = Ok ref).
Proof.
  intros r. subst r. unfold main.
  destruct (help flags); [by split_and!; auto|].
  case_bool_decide as Hargs; [by split_and!; auto|].
  case_bool_decide as Himg; [by split_and!; auto|].
  assert (Hne : flag_Args flags ≠ []) by (by destruct (flag_Args flags)).
  destruct (name_ParseReference (image flags)) as [ref|e]; [|by split_and!; auto].
  destruct (parseFiles _ _ _ _) as [log [rs|e]] eqn:Hparse.
  2:{ split_and!; [auto | done | done |]. intros _. split_and!; eauto. }
  destruct (build w fs rs) as [fs' [img|e]] eqn:Hb.
  2:{ split_and!; [auto | | done |].
      - by destruct (bool_decide _).
      - intros _. split_and!; eauto. }
  destruct (publishImage manifest_digest w img ref) as [log' [d|e]] eqn:Hpub.
  2:{ split_and!; [auto | | done |].
      - by destruct (bool_decide _).
      - intros _. split_and!; eauto. }
  pose proof (publishImage_parts w img ref) as Hparts. rewrite Hpub in Hparts.
  simpl in Hparts. destruct Hparts as [Hpush Hdig].
  split_and!; [auto | | |].
  - by destruct (bool_decide _).
  - intros _. right. exists ref, log, rs, fs', img, d. split_and!; try done.
    simpl. by rewrite last_snoc.
  - intros _. split_and!; eauto.
Qed.

End BundlerMore.

(** ** Which key loader [Verify] consults *)

Section VerificationMore.

Context {context_Context Keychain ecdsaPublicKey sigVerifier : Type}.
Variable strings_TrimSpace : string -> string.
Variable cosign_VerifyImageSignatures :
  context_Context -> Reference -> CheckOpts context_Context Keychain sigVerifier ->
  bool * option error.

Local Abbreviation verify_with pem load keyref :=
  (cosignVerifier_Verify (ecdsaPublicKey := ecdsaPublicKey) strings_TrimSpace pem load
     keyref cosign_VerifyImageSignatures).

(** X11.  What [Verify] asks of the key loaders.  With no key material it
    consults none of them.  With key material whose trimmed text begins
    with the PEM marker it consults the PEM parser on the trimmed text and
    never the key-reference resolver.  With any other key material it
    consults the key-reference resolver on the key as given, not trimmed,
    and never the PEM parser or the ECDSA loader. *)
Theorem Verify_key_dispatch ctx imgRef key keychain :
  (key = EmptyString ->
     ∀ pem1 load1 ref1 pem2 load2 ref2,
       verify_with pem1 load1 ref1 ctx imgRef key keychain =
       verify_with pem2 load2 ref2 ctx imgRef key keychain) ∧
  (HasPrefix (strings_TrimSpace key) pemMarker = true ->
     ∀ pem1 pem2 load ref1 ref2,
       pem1 (strings_TrimSpace key) = pem2 (strings_TrimSpace key) ->
       verify_with pem1 load ref1 ctx imgRef key keychain =
       verify_with pem2 load ref2 ctx imgRef key keychain) ∧
  (HasPrefix (strings_TrimSpace key) pemMarker = false ->
     ∀ pem1 load1 pem2 load2 ref1 ref2,
       ref1 ctx key = ref2 ctx key ->
       verify_with pem1 load1 ref1 ctx imgRef key keychain =
       verify_with pem2 load2 ref2 ctx imgRef key keychain).
Proof.
  split_and!.
  - intros -> *. unfold cosignVerifier_Verify, loadKey.
    by rewrite bool_decide_false by (by intros []).
  - intros Hp pem1 pem2 load ref1 ref2 Hpem. unfold cosignVerifier_Verify, loadKey.
    by rewrite Hp, Hpem.
  - intros Hp pem1 load1 pem2 load2 ref1 ref2 Href. unfold cosignVerifier_Verify, loadKey.
    by rewrite Hp, Href.
Qed.

End VerificationMore.

Lemma occurs_Contains (s sub : string) : Contains s sub -> occurs sub s = true.
Proof.
  intros (pre & post & ->). induction pre as [|c pre IH].
  - rewrite append_nil_l. pose proof (prefix_append sub post) as Hp.
    destruct (sub +:+ post); cbn [occurs]; by rewrite Hp.
  - rewrite append_cons. cbn [occurs]. rewrite IH. apply orb_true_r.
Qed.

(** ** Further runs on explicit inputs *)

Lemma Sample_Join_inj (dir a b : string) : Sample.Join dir a = Sample.Join dir b -> a = b.
Proof.
  unfold Sample.Join. intros H.
  apply (inj (String.append dir)) in H. by apply (inj (String.append "/")) in H.
Qed.

Lemma Sample_RemoveAll_staged (dir : string) (fs : FS) (name : string) :
  Sample.RemoveAll dir fs !! Sample.Join dir name = None.
Proof.
  unfold Sample.RemoveAll. apply map_lookup_filter_None. right.
  intros x _. simpl. unfold Sample.Join. rewrite prefix_append. simpl. tauto.
Qed.

(** A run of X1's theorem: the task document, parsed under another file
    name and index, gives the same resource. *)
Lemma parseResource_resource_witness :
  parseResource Sample.Unmarshal Sample.Quote Sample.taskA "other.yaml" 7 = Ok Sample.rA.
Proof.
  refine (proj2 (proj2 (proj2 (proj2
    (parseResource_resource Sample.Unmarshal Sample.Quote Sample.taskA "a.yaml" 0
       Sample.rA _)))) "other.yaml" 7).
  reflexivity.
Defined.

(** A run of X2's theorem. *)
Lemma parseFiles_contents_witness :
  ∃ cs groups,
    Forall2 (fun f c => Sample.ReadFile Sample.disk2 f = Ok c) ["a.yaml"] cs ∧
    [Sample.rA; Sample.rB] = concat groups ∧
    Forall2 (fun c (g : list resource) =>
               content <$> g = Split c separator ∧
               String.concat separator (content <$> g) = c) cs groups.
Proof.
  refine (parseFiles_contents Sample.Unmarshal Sample.Quote
            (Sample.ReadFile Sample.disk2) ["a.yaml"] [Sample.rA; Sample.rB] _).
  reflexivity.
Defined.

(** A run of X3's theorem. *)
Lemma parseFiles_supported_witness :
  Forall (fun r => apiVersion (key r) = "tekton.dev/v1beta1" ∧
                   (kind (key r) = "Task" ∨ kind (key r) = "Pipeline") ∧
                   name (key r) ≠ EmptyString) [Sample.rA; Sample.rB].
Proof.
  refine (parseFiles_supported Sample.Unmarshal Sample.Quote
            (Sample.ReadFile Sample.disk2) ["a.yaml"] [Sample.rA; Sample.rB] _).
  reflexivity.
Defined.

(** A run of X4's theorem: a file that holds the task document alone. *)
Lemma parseFiles_single_document_witness :
  (parseFiles Sample.Unmarshal Sample.Quote
     (Sample.ReadFile [("task.yaml", Sample.taskA)]) ["task.yaml"]).2
  = Ok [Sample.rA].
Proof.
  refine (parseFiles_single_document Sample.Unmarshal Sample.Quote
            (Sample.ReadFile [("task.yaml", Sample.taskA)]) "task.yaml" Sample.taskA _ _).
  - reflexivity.
  - intros H. apply occurs_Contains in H. vm_compute in H. discriminate H.
Defined.

(** A run of X5's theorem: two resources, two lines. *)
Lemma parseFiles_found_lines_witness :
  length (parseFiles Sample.Unmarshal Sample.Quote (Sample.ReadFile Sample.disk2)
            ["a.yaml"]).1 = 2.
Proof.
  refine (proj1 (proj1
    (parseFiles_found_lines Sample.Unmarshal Sample.Quote (Sample.ReadFile Sample.disk2)
       ["a.yaml"]) [Sample.rA; Sample.rB] _)).
  reflexivity.
Defined.

(** A run of X6's theorem: the only file is missing. *)
Lemma parseFiles_unreadable_witness :
  (parseFiles Sample.Unmarshal Sample.Quote (Sample.ReadFile []) ["missing.yaml"]).2
  = Err ("reading " +:+ DQ +:+ "missing.yaml" +:+ DQ +:+
         ": open missing.yaml: no such file or directory").
Proof.
  refine (proj2
    (parseFiles_unreadable Sample.Unmarshal Sample.Quote (Sample.ReadFile [])
       ["missing.yaml"] "missing.yaml" "open missing.yaml: no such file or directory" _ _)
    [] [] [] _ _ _).
  - apply list_elem_of_here.
  - reflexivity.
  - reflexivity.
  - constructor.
  - constructor.
Defined.

(** A run of X7's theorem: the error of a batch with a repeated task. *)
Lemma parseFiles_error_cause_witness :
  (∃ f e, f ∈ ["a.yaml"] ∧
          Sample.ReadFile
            [("a.yaml", Sample.taskA +:+ separator +:+ Sample.taskA)] f = Err e ∧
          "duplicate entry {tekton.dev/v1beta1 Task a}" = errReading Sample.Quote f e) ∨
  (∃ f i p e,
     EPart f i p ∈ events (Sample.ReadFile
                             [("a.yaml", Sample.taskA +:+ separator +:+ Sample.taskA)])
                          ["a.yaml"] ∧
     parseResource Sample.Unmarshal Sample.Quote p f i = Err e ∧
     "duplicate entry {tekton.dev/v1beta1 Task a}" = errParsing e) ∨
  (∃ m n f1 i1 p1 f2 i2 p2 r1 r2,
     m < n ∧
     events (Sample.ReadFile [("a.yaml", Sample.taskA +:+ separator +:+ Sample.taskA)])
            ["a.yaml"] !! m = Some (EPart f1 i1 p1) ∧
     events (Sample.ReadFile [("a.yaml", Sample.taskA +:+ separator +:+ Sample.taskA)])
            ["a.yaml"] !! n = Some (EPart f2 i2 p2) ∧
     parseResource Sample.Unmarshal Sample.Quote p1 f1 i1 = Ok r1 ∧
     parseResource Sample.Unmarshal Sample.Quote p2 f2 i2 = Ok r2 ∧
     key r1 = key r2 ∧
     "duplicate entry {tekton.dev/v1beta1 Task a}" = errDuplicate (key r2)).
Proof.
  refine (parseFiles_error_cause Sample.Unmarshal Sample.Quote
            (Sample.ReadFile [("a.yaml", Sample.taskA +:+ separator +:+ Sample.taskA)])
            ["a.yaml"] "duplicate entry {tekton.dev/v1beta1 Task a}" _).
  reflexivity.
Defined.

(** A run of X8's theorem: a file outside the staging directory is as it
    was before the cleanup. *)
Lemma constructImage_confined_witness :
  ∃ fs1 : FS,
    (Sample.built Sample.w1).1 = Sample.RemoveAll (tempDirOf Sample.Join Sample.w1) fs1 ∧
    fs1 !! "/etc/passwd" = (∅ : FS) !! "/etc/passwd".
Proof.
  destruct (constructImage_confined Sample.Join Sample.header Sample.computeDigest
              Sample.computeDiffID Sample.compressed Sample.uncompressed Sample.validate
              Sample.RemoveAll Sample.w1 ∅ [Sample.rA; Sample.rB]) as (fs1 & Hfs & Hframe).
  exists fs1. split; [exact Hfs|]. apply Hframe.
  intros j _ Heq. vm_compute in Heq. discriminate Heq.
Defined.

(** A run of X9's theorem: the staging file of the second resource. *)
Lemma constructImage_loop_staged_witness :
  Sample.staged.1 !! "/tmp/stage/resource-1.tar"
  = Some (tarBytes Sample.header Sample.rB 1).
Proof.
  refine (proj1
    (constructImage_loop_staged Sample.Join Sample.header Sample.computeDigest
       Sample.computeDiffID Sample.compressed Sample.uncompressed Sample.validate
       Sample.w1 "/tmp/stage" [Sample.rA; Sample.rB] (Sample_Join_inj "/tmp/stage")
       0 empty_Image ∅ Sample.staged.1
       (match Sample.staged.2 with Ok img => img | Err _ => [] end)
       _ 1 Sample.rB _)); reflexivity.
Defined.

(** A run of X10's theorem: the first layer of the image that
    [constructImage] returned cannot be read any more. *)
Lemma constructImage_layers_after_cleanup_witness :
  (fun al => annotatedLayer_Compressed al (Sample.built Sample.w1).1)
    <$> Sample.imageOf Sample.w1 !! 0
  = Some (Err ("open /tmp/tekton-bundler-1700000000000000/resource-0.tar" +:+
               ": no such file or directory")).
Proof.
  destruct (Sample.imageOf Sample.w1 !! 0) as [al|] eqn:Hal;
    [|vm_compute in Hal; discriminate Hal].
  simpl. f_equal.
  refine (proj1
    (constructImage_layers_after_cleanup Sample.Join Sample.header Sample.computeDigest
       Sample.computeDiffID Sample.compressed Sample.uncompressed Sample.validate
       Sample.RemoveAll Sample.w1 ∅ (Sample.built Sample.w1).1 [Sample.rA; Sample.rB]
       (Sample.imageOf Sample.w1) _ _ 0 al Hal)).
  - intros fs1 name. apply Sample_RemoveAll_staged.
  - reflexivity.
Defined.

(** A run of X11's theorem: with no key, a key loader that always fails
    changes nothing. *)
Lemma Verify_key_dispatch_witness :
  cosignVerifier_Verify Sample.TrimSpace Sample.PemToECDSAKey Sample.LoadECDSAVerifier
    Sample.PublicKeyFromKeyRef (Sample.backend (true, None)) tt Sample.imgRef
    EmptyString tt
  = cosignVerifier_Verify Sample.TrimSpace Sample.PemToECDSAKey
      Sample.LoadECDSAVerifier_failing Sample.PublicKeyFromKeyRef
      (Sample.backend (true, None)) tt Sample.imgRef EmptyString tt.
Proof.
  refine (proj1
    (Verify_key_dispatch Sample.TrimSpace (Sample.backend (true, None)) tt Sample.imgRef
       EmptyString tt) eq_refl _ _ _ _ _ _).
Defined.

(** A run of X12's theorem: the run with twelve resources wrote to standard
    error, so its flags were valid. *)
Lemma main_outcomes_witness :
  help Sample.flags12 = false ∧ flag_Args Sample.flags12 ≠ [] ∧
  image Sample.flags12 ≠ EmptyString ∧
  ∃ ref, Sample.ParseReference (image Sample.flags12) = Ok ref.
Proof.
  refine (proj2 (proj2 (proj2
    (main_outcomes Sample.Unmarshal Sample.Quote Sample.Join Sample.header
       Sample.computeDigest Sample.computeDiffID Sample.compressed Sample.uncompressed
       Sample.validate Sample.manifest Sample.ParseReference Sample.RemoveAll
       Sample.w12 ∅ Sample.flags12))) _).
  vm_compute. discriminate.
Defined.
